(** * The Solace Node.js samples: QueueProducer and GuaranteedRequestor

    A shallow embedding of the two tutorial scripts
    (basic-samples/QueueProducer.js and the guaranteed requestor) and of the
    part of the solclientjs API and of the Node.js runtime they call.

    Each script builds one object ([producer], [requestor]) whose fields are
    mutated by the script's functions and by the callbacks it registers on
    the session and on the subscriber flow.  A function of the script is a
    computation in the monad [Js]: it reads and writes the object, calls the
    SDK and the runtime, and either returns or throws.  The calls made to
    the outside (console, SDK, timers) are collected, in order, as a list of
    [Effect]s.  The callbacks are run by [dispatch] on the events the SDK
    and the timer queue deliver. *)

From Stdlib Require Import DecimalString DecimalFacts DecimalNat.
From stdpp Require Import base strings list gmap.

Open Scope string_scope.
Open Scope list_scope.

(** ** JavaScript values reaching the scripts *)

(** The scripts handle strings that may be absent: [argv.slice(n)[0]] is
    [undefined] out of range, the fields are initialised with [null], and a
    getter of an inbound message may return either. *)
Inductive JsVal :=
| JsNull
| JsUndefined
| JsString (s : string).

#[global] Instance JsVal_eq_dec : EqDecision JsVal.
Proof. solve_decision. Defined.

(** [a === b] on these values. *)
Definition strict_eq (a b : JsVal) : bool := bool_decide (a = b).

(** The conversion done by ['...' + v]. *)
Definition to_str (v : JsVal) : string :=
  match v with
  | JsNull => "null"
  | JsUndefined => "undefined"
  | JsString s => s
  end.

(** The double quote and the line feed occurring in the logged lines. *)
Definition dq : string := String (Ascii.ascii_of_nat 34) EmptyString.
Definition nl : string := String (Ascii.ascii_of_nat 10) EmptyString.

(** [a.slice(n)] and [a[0]] on [process.argv]. *)
Definition slice (n : nat) (a : list string) : list string := drop n a.

Definition at0 (a : list string) : JsVal :=
  match a !! 0 with
  | Some s => JsString s
  | None => JsUndefined
  end.

(** ** The part of the solclientjs API the scripts use *)

Inductive SessionEventCode := UP_NOTICE | CONNECTING | DISCONNECTED.

Inductive DestinationType := TOPIC | QUEUE.

Inductive MessageDeliveryModeType := DIRECT | PERSISTENT | NON_PERSISTENT.

Inductive EndpointDurability := DURABLE | NON_DURABLE_GUARANTEED.

Inductive EndpointPermissions := PERM_NONE | READ_ONLY | CONSUME | MODIFY_TOPIC | DELETE.

Inductive FlowEventName := UP | MESSAGE.

(** A destination is either built by [new solace.Destination(name, type)] or
    is the temporary queue a session allocated, known by its handle. *)
Inductive Destination :=
| NamedDestination (name : string) (type : DestinationType)
| TemporaryQueue (q : nat).

#[global] Instance DestinationType_eq_dec : EqDecision DestinationType.
Proof. solve_decision. Defined.
#[global] Instance Destination_eq_dec : EqDecision Destination.
Proof. solve_decision. Defined.
#[global] Instance MessageDeliveryModeType_eq_dec : EqDecision MessageDeliveryModeType.
Proof. solve_decision. Defined.

Record SessionProperties := {
  url : string;
  vpnName : JsVal;
  userName : JsVal;
  password : JsVal
}.

(** An outbound message, as the setters leave it. *)
Record Message := {
  destination : option Destination;
  binaryAttachment : JsVal;
  replyTo : option Destination;
  correlationId : JsVal;
  deliveryMode : MessageDeliveryModeType
}.

(** [solace.SolclientFactory.createMessage()]: nothing set, direct delivery. *)
Definition createMessage : Message :=
  {| destination := None; binaryAttachment := JsNull; replyTo := None;
     correlationId := JsNull; deliveryMode := DIRECT |}.

Definition setDestination (d : Destination) (m : Message) : Message :=
  {| destination := Some d; binaryAttachment := binaryAttachment m;
     replyTo := replyTo m; correlationId := correlationId m;
     deliveryMode := deliveryMode m |}.

Definition setBinaryAttachment (v : JsVal) (m : Message) : Message :=
  {| destination := destination m; binaryAttachment := v;
     replyTo := replyTo m; correlationId := correlationId m;
     deliveryMode := deliveryMode m |}.

Definition setReplyTo (d : Destination) (m : Message) : Message :=
  {| destination := destination m; binaryAttachment := binaryAttachment m;
     replyTo := Some d; correlationId := correlationId m;
     deliveryMode := deliveryMode m |}.

Definition setCorrelationId (v : JsVal) (m : Message) : Message :=
  {| destination := destination m; binaryAttachment := binaryAttachment m;
     replyTo := replyTo m; correlationId := v;
     deliveryMode := deliveryMode m |}.

Definition setDeliveryMode (d : MessageDeliveryModeType) (m : Message) : Message :=
  {| destination := destination m; binaryAttachment := binaryAttachment m;
     replyTo := replyTo m; correlationId := correlationId m;
     deliveryMode := d |}.

(** What the requestor reads from a message received on its flow. *)
Record Inbound := {
  getCorrelationId : JsVal;
  getBinaryAttachment : JsVal;
  dump : string
}.

(** The endpoint given to [createSubscriberFlow]. *)
Record Endpoint := {
  ep_destination : Destination;
  ep_durable : EndpointDurability;
  ep_permissions : EndpointPermissions
}.

(** ** The runtime: effects, timers, the world *)

(** The only function the scripts hand to [setTimeout]. *)
Inductive TimerCallback := CallProcessExit.

(** The calls a script makes to the outside.  Sessions, temporary queues and
    flows are objects of the SDK; they are known by the handle they got when
    they were created.  [console.log] is given the line without the
    timestamp [log] puts in front of it. *)
Inductive Effect :=
| ConsoleLog (line : string)
| CreateSession (p : SessionProperties) (s : nat)
| SessionOn (s : nat) (code : SessionEventCode)
| SessionConnect (s : nat)
| SessionCreateTemporaryQueue (s q : nat)
| SessionCreateSubscriberFlow (s f : nat) (e : Endpoint)
| FlowOn (f : nat) (name : FlowEventName)
| FlowConnect (f : nat)
| SessionSend (s : nat) (m : Message)
| SessionDisconnect (s : nat)
| SessionDispose (s : nat)
| SetTimeout (cb : TimerCallback) (delay : nat)
| ProcessExit.

(** The world outside the script's object: the clock in milliseconds, the
    pending timers with the time they are due, the next free handle, the
    number of fallible SDK calls made so far, and whether [process.exit()]
    has run.  [exited] is about that call only: a process that ends because
    nothing is left pending, or dies of an error no one caught, is not
    marked by it. *)
Record World := {
  now : nat;
  timers : list (nat * TimerCallback);
  next_handle : nat;
  sdk_calls : nat;
  exited : bool
}.

Definition boot : World :=
  {| now := 0; timers := []; next_handle := 0; sdk_calls := 0; exited := false |}.

(** The behaviour of the SDK on the calls the scripts expect to fail,
    [session.connect()], [session.send(msg)] and [session.disconnect()]: the
    [n]-th such call of a run throws the error [e] when the oracle answers
    [Some e] at [n].  Every run of the SDK is some oracle.  The other calls
    of the SDK ([createSession], [on], [createTemporaryQueue],
    [createSubscriberFlow], [flow.connect], [dispose]) are taken to return:
    what is stated below of a run that got past them says nothing of a run
    in which one of them throws. *)
Definition Sdk := nat -> option string.

(** ** The monad of the scripts' functions *)

Inductive Outcome (A : Type) :=
| Returned (a : A)
| Threw (error : string).
Arguments Returned {A} a.
Arguments Threw {A} error.

Record Res (St A : Type) := mkRes {
  outcome : Outcome A;
  st : St;
  world : World;
  emitted : list Effect
}.
Arguments mkRes {St A}.
Arguments outcome {St A}.
Arguments st {St A}.
Arguments world {St A}.
Arguments emitted {St A}.

Definition Js (St A : Type) := St -> World -> Res St A.

Section JsMonad.
Context {St : Type}.

Definition ret {A} (a : A) : Js St A :=
  fun s w => mkRes (Returned a) s w [].

Definition bind {A B} (m : Js St A) (k : A -> Js St B) : Js St B :=
  fun s w =>
    match m s w with
    | mkRes (Returned a) s1 w1 e1 =>
        match k a s1 w1 with
        | mkRes o s2 w2 e2 => mkRes o s2 w2 (e1 ++ e2)
        end
    | mkRes (Threw e) s1 w1 e1 => mkRes (Threw e) s1 w1 e1
    end.

Definition throw {A} (e : string) : Js St A :=
  fun s w => mkRes (Threw e) s w [].

(** [try { m } catch (error) { h error }] *)
Definition try_catch {A} (m : Js St A) (h : string -> Js St A) : Js St A :=
  fun s w =>
    match m s w with
    | mkRes (Returned a) s1 w1 e1 => mkRes (Returned a) s1 w1 e1
    | mkRes (Threw e) s1 w1 e1 =>
        match h e s1 w1 with
        | mkRes o s2 w2 e2 => mkRes o s2 w2 (e1 ++ e2)
        end
    end.

Definition emit (e : Effect) : Js St unit :=
  fun s w => mkRes (Returned tt) s w [e].

Definition gets {A} (f : St -> A) : Js St A :=
  fun s w => mkRes (Returned (f s)) s w [].

Definition modify (f : St -> St) : Js St unit :=
  fun s w => mkRes (Returned tt) (f s) w [].

(** Allocation of an SDK object: the next handle. *)
Definition fresh : Js St nat :=
  fun s w =>
    mkRes (Returned (next_handle w)) s
      {| now := now w; timers := timers w; next_handle := S (next_handle w);
         sdk_calls := sdk_calls w; exited := exited w |} [].

(** A call of the SDK that may throw: the call is made, then the oracle
    decides. *)
Definition fallible (sdk : Sdk) (e : Effect) : Js St unit :=
  fun s w =>
    let w' := {| now := now w; timers := timers w; next_handle := next_handle w;
                 sdk_calls := S (sdk_calls w); exited := exited w |} in
    match sdk (sdk_calls w) with
    | None => mkRes (Returned tt) s w' [e]
    | Some err => mkRes (Threw err) s w' [e]
    end.

(** [setTimeout(cb, delay)] *)
Definition setTimeout (cb : TimerCallback) (delay : nat) : Js St unit :=
  fun s w =>
    mkRes (Returned tt) s
      {| now := now w; timers := timers w ++ [(now w + delay, cb)];
         next_handle := next_handle w; sdk_calls := sdk_calls w;
         exited := exited w |}
      [SetTimeout cb delay].
End JsMonad.

Notation "'let*' x ':=' m 'in' k" := (bind m (fun x => k))
  (at level 10, x name, m at level 100, k at level 200).
Notation "m ';;;' k" := (bind m (fun _ => k))
  (at level 100, k at level 200, right associativity).

(** [console.log(timestamp + line)], the timestamp left out. *)
Definition log {St} (line : string) : Js St unit := emit (ConsoleLog line).

(** ** Events delivered to the scripts *)

Inductive Event :=
| SessionEvent (s : nat) (code : SessionEventCode)
| FlowUp (f : nat)
| FlowMessage (f : nat) (m : Inbound)
| Elapse (ms : nat).

(** The timers due at the new time run, in the order they were set. *)
Definition run_callback (cb : TimerCallback) : list Effect :=
  match cb with CallProcessExit => [ProcessExit] end.

Definition due (t : nat) (tm : nat * TimerCallback) : bool := bool_decide (tm.1 <= t).

Definition elapse (ms : nat) (w : World) : World * list Effect :=
  let t := now w + ms in
  let fired := filter (fun tm => due t tm = true) (timers w) in
  let left := filter (fun tm => due t tm = false) (timers w) in
  ({| now := t; timers := left; next_handle := next_handle w;
      sdk_calls := sdk_calls w;
      exited := exited w || bool_decide (fired <> []) |},
   concat (map (fun tm => run_callback tm.2) fired)).

(** One dispatched event: what was delivered, how the callback ended, the
    calls it made. *)
Record Step := mkStep {
  step_event : option Event;
  step_outcome : Outcome unit;
  step_effects : list Effect
}.

(** The events are delivered one after the other until the process has
    exited.  An error that escapes a listener is kept in the step and the
    delivery goes on; a run in which the process dies of that error instead
    is a prefix of this one. *)
Fixpoint deliver {St} (dispatch : Event -> St -> World -> Res St unit)
    (evs : list Event) (s : St) (w : World) : list Step * St * World :=
  match evs with
  | [] => ([], s, w)
  | e :: evs' =>
      if exited w then ([], s, w)
      else
        let r := dispatch e s w in
        let '(steps, s', w') := deliver dispatch evs' (st r) (world r) in
        (mkStep (Some e) (outcome r) (emitted r) :: steps, s', w')
  end.

(** What an execution shows, in order: the events delivered and the calls
    made while each was handled. *)
Inductive Obs :=
| Delivered (e : Event)
| Did (eff : Effect).

Definition observe (stp : Step) : list Obs :=
  match step_event stp with
  | Some e => [Delivered e]
  | None => []
  end ++ map Did (step_effects stp).

Definition observations (steps : list Step) : list Obs :=
  concat (map observe steps).

(** The messages handed to [session.send]. *)
Definition sent (effs : list Effect) : list Message :=
  omap (fun e => match e with SessionSend _ m => Some m | _ => None end) effs.

Definition effects (steps : list Step) : list Effect :=
  concat (map step_effects steps).

(** ** basic-samples/QueueProducer.js *)

Module QueueProducer.

(** The [producer] object, and the sessions that carry its listeners. *)
Record Producer := {
  session : option nat;
  queueName : string;
  listening : gset nat
}.

Definition set_session (v : option nat) (p : Producer) : Producer :=
  {| session := v; queueName := queueName p; listening := listening p |}.

Definition add_listening (s : nat) (p : Producer) : Producer :=
  {| session := session p; queueName := queueName p;
     listening := {[s]} ∪ listening p |}.

Section WithSdk.
Variable sdk : Sdk.

Definition disconnect : Js Producer unit :=
  log "Disconnecting from Solace message router..." ;;;
  let* s := gets session in
  match s with
  | Some h => try_catch (fallible sdk (SessionDisconnect h)) (fun error => log error)
  | None => log "Not connected to Solace message router."
  end.

Definition exit : Js Producer unit :=
  disconnect ;;;
  setTimeout CallProcessExit 1000.

Definition sendMessage : Js Producer unit :=
  let* s := gets session in
  match s with
  | Some h =>
      let messageText := "Sample Message" in
      let message := createMessage in
      let* q := gets queueName in
      log ("Sending message " +:+ dq +:+ messageText +:+ dq +:+ " to queue "
             +:+ dq +:+ q +:+ dq +:+ "...") ;;;
      let message := setDestination (NamedDestination q QUEUE) message in
      let message := setBinaryAttachment (JsString messageText) message in
      let message := setDeliveryMode PERSISTENT message in
      try_catch
        (fallible sdk (SessionSend h message) ;;;
         log "Message sent.")
        (fun error => log error)
  | None =>
      log "Cannot send messages because not connected to Solace message router."
  end.

(** The listeners [connectToSolace] puts on the session. *)
Definition on_UP_NOTICE : Js Producer unit :=
  log "=== Successfully connected and ready to send messages. ===" ;;;
  sendMessage ;;;
  exit.

Definition on_DISCONNECTED : Js Producer unit :=
  log "Disconnected." ;;;
  let* s := gets session in
  match s with
  | Some h =>
      emit (SessionDispose h) ;;;
      modify (set_session None)
  | None => ret tt
  end.

Definition connectToSolace (host username password vpn : JsVal) : Js Producer unit :=
  log ("Connecting to Solace message router using WebSocket transport url ws://"
         +:+ to_str host) ;;;
  log ("Solace message router VPN name: " +:+ to_str vpn) ;;;
  log ("Client username: " +:+ to_str username) ;;;
  let sessionProperties :=
    {| url := "ws://" +:+ to_str host; vpnName := vpn;
       userName := username; password := password |} in
  let* h := fresh in
  emit (CreateSession sessionProperties h) ;;;
  modify (set_session (Some h)) ;;;
  emit (SessionOn h UP_NOTICE) ;;;
  emit (SessionOn h DISCONNECTED) ;;;
  modify (add_listening h) ;;;
  try_catch (fallible sdk (SessionConnect h)) (fun error => log error).

Definition connect (host username password vpn : JsVal) : Js Producer unit :=
  let* s := gets session in
  match s with
  | Some _ => log "Already connected and ready to send messages."
  | None => connectToSolace host username password vpn
  end.

Definition run (argv : list string) : Js Producer unit :=
  if bool_decide (2 + 4 <= length argv) then
    connect (at0 (slice 2 argv)) (at0 (slice 3 argv))
            (at0 (slice 4 argv)) (at0 (slice 5 argv))
  else
    log ("Cannot connect: expecting all arguments" +:+
         " <host:port> <client-username> <client-password> <message-vpn>.").

(** [QueueProducer(solace, queueName)]: the object and its first line. *)
Definition new (queueName : string) : Producer :=
  {| session := None; queueName := queueName; listening := ∅ |}.

Definition banner (queueName : string) : string :=
  nl +:+ "*** Producer to queue " +:+ dq +:+ queueName +:+ dq
     +:+ " is ready to connect ***".

(** The script: build the producer on ['tutorial/queue'], then [run].  The
    initialisation of the factory and the log level, set before, are left
    out: they touch neither the object nor the calls below. *)
Definition main (argv : list string) : Res Producer unit :=
  (log (banner "tutorial/queue") ;;; run argv) (new "tutorial/queue") boot.

(** An event reaches a listener only on a session that carries one; the
    producer listens to [UP_NOTICE] and [DISCONNECTED] and has no flow. *)
Definition dispatch (e : Event) (p : Producer) (w : World) : Res Producer unit :=
  match e with
  | SessionEvent s code =>
      if bool_decide (s ∈ listening p) then
        match code with
        | UP_NOTICE => on_UP_NOTICE p w
        | DISCONNECTED => on_DISCONNECTED p w
        | CONNECTING => ret tt p w
        end
      else ret tt p w
  | FlowUp _ => ret tt p w
  | FlowMessage _ _ => ret tt p w
  | Elapse ms =>
      let '(w', effs) := elapse ms w in
      mkRes (Returned tt) p w' effs
  end.

(** A whole execution: the script, then the events. *)
Definition execution (argv : list string) (evs : list Event)
  : list Step * Producer * World :=
  let r := main argv in
  let '(steps, p', w') := deliver dispatch evs (st r) (world r) in
  (mkStep None (outcome r) (emitted r) :: steps, p', w').
End WithSdk.
End QueueProducer.

(** ** The guaranteed requestor *)

Module GuaranteedRequestor.

(** The [requestor] object, the sessions that carry its listeners, and the
    flows that carry the listeners of [request], each with the
    [replyToQueue] its listeners closed over. *)
Record Requestor := {
  session : option nat;
  requestQueueName : string;
  correlationID : JsVal;
  listening : gset nat;
  flows : gmap nat nat
}.

Definition set_session (v : option nat) (r : Requestor) : Requestor :=
  {| session := v; requestQueueName := requestQueueName r;
     correlationID := correlationID r; listening := listening r;
     flows := flows r |}.

Definition set_correlationID (v : JsVal) (r : Requestor) : Requestor :=
  {| session := session r; requestQueueName := requestQueueName r;
     correlationID := v; listening := listening r; flows := flows r |}.

Definition add_listening (s : nat) (r : Requestor) : Requestor :=
  {| session := session r; requestQueueName := requestQueueName r;
     correlationID := correlationID r; listening := {[s]} ∪ listening r;
     flows := flows r |}.

Definition add_flow (f q : nat) (r : Requestor) : Requestor :=
  {| session := session r; requestQueueName := requestQueueName r;
     correlationID := correlationID r; listening := listening r;
     flows := <[f:=q]> (flows r) |}.

Section WithSdk.
Variable sdk : Sdk.

Definition disconnect : Js Requestor unit :=
  log "Disconnecting from Solace message router..." ;;;
  let* s := gets session in
  match s with
  | Some h => try_catch (fallible sdk (SessionDisconnect h)) (fun error => log error)
  | None => log "Not connected to Solace message router."
  end.

Definition exit : Js Requestor unit :=
  disconnect ;;;
  setTimeout CallProcessExit 1000.

(** The listener of [FlowEventName.UP]; [requestor.session.send] on a
    [null] session is a TypeError, and nothing catches what [send]
    throws. *)
Definition on_flow_UP (replyToQueue : nat) : Js Requestor unit :=
  let msg := createMessage in
  let requestText := "Sample Request" in
  let* q := gets requestQueueName in
  log ("Sending request " +:+ dq +:+ requestText +:+ dq +:+ " to request queue "
         +:+ dq +:+ q +:+ dq +:+ "...") ;;;
  let msg := setDestination (NamedDestination q QUEUE) msg in
  let msg := setBinaryAttachment (JsString requestText) msg in
  let msg := setReplyTo (TemporaryQueue replyToQueue) msg in
  modify (set_correlationID (JsString "MyCorrelationID")) ;;;
  let* c := gets correlationID in
  let msg := setCorrelationId c msg in
  let msg := setDeliveryMode PERSISTENT msg in
  let* s := gets session in
  match s with
  | Some h => fallible sdk (SessionSend h msg)
  | None => throw "TypeError: Cannot read properties of null (reading 'send')"
  end.

(** The listener of [FlowEventName.MESSAGE]. *)
Definition on_flow_MESSAGE (message : Inbound) : Js Requestor unit :=
  let* c := gets correlationID in
  (if strict_eq (getCorrelationId message) c then
     log ("Received reply: " +:+ dq +:+ to_str (getBinaryAttachment message)
            +:+ dq +:+ ", details:" +:+ nl +:+ dump message)
   else
     log ("Received reply but correlation ID didn't match: " +:+ dq
            +:+ to_str (getBinaryAttachment message) +:+ dq +:+ ","
            +:+ " details:" +:+ nl +:+ dump message)) ;;;
  exit.

Definition request : Js Requestor unit :=
  let* s := gets session in
  match s with
  | Some h =>
      let* replyToQueue := fresh in
      emit (SessionCreateTemporaryQueue h replyToQueue) ;;;
      let* flow := fresh in
      emit (SessionCreateSubscriberFlow h flow
              {| ep_destination := TemporaryQueue replyToQueue;
                 ep_durable := NON_DURABLE_GUARANTEED;
                 ep_permissions := DELETE |}) ;;;
      emit (FlowOn flow UP) ;;;
      emit (FlowOn flow MESSAGE) ;;;
      modify (add_flow flow replyToQueue) ;;;
      emit (FlowConnect flow)
  | None =>
      log "Cannot send request because not connected to Solace message router."
  end.

(** The listeners [connectToSolace] puts on the session. *)
Definition on_UP_NOTICE : Js Requestor unit :=
  log "=== Successfully connected and ready to send requests. ===" ;;;
  request.

Definition on_CONNECTING : Js Requestor unit :=
  log "Connecting...".

Definition on_DISCONNECTED : Js Requestor unit :=
  log "Disconnected." ;;;
  let* s := gets session in
  match s with
  | Some h =>
      emit (SessionDispose h) ;;;
      modify (set_session None)
  | None => ret tt
  end.

Definition connectToSolace (host username password vpn : JsVal) : Js Requestor unit :=
  log ("Connecting to Solace message router using WebSocket transport url ws://"
         +:+ to_str host) ;;;
  log ("Solace message router VPN name: " +:+ to_str vpn) ;;;
  log ("Client username: " +:+ to_str username) ;;;
  let sessionProperties :=
    {| url := "ws://" +:+ to_str host; vpnName := vpn;
       userName := username; password := password |} in
  let* h := fresh in
  emit (CreateSession sessionProperties h) ;;;
  modify (set_session (Some h)) ;;;
  emit (SessionOn h UP_NOTICE) ;;;
  emit (SessionOn h CONNECTING) ;;;
  emit (SessionOn h DISCONNECTED) ;;;
  modify (add_listening h) ;;;
  try_catch (fallible sdk (SessionConnect h)) (fun error => log error).

Definition connect (host username password vpn : JsVal) : Js Requestor unit :=
  let* s := gets session in
  match s with
  | Some _ => log "Already connected and ready to send requests."
  | None => connectToSolace host username password vpn
  end.

Definition run (argv : list string) : Js Requestor unit :=
  if bool_decide (2 + 4 <= length argv) then
    connect (at0 (slice 2 argv)) (at0 (slice 3 argv))
            (at0 (slice 4 argv)) (at0 (slice 5 argv))
  else
    log ("Cannot connect: expecting all arguments" +:+
         " <host:port> <client-username> <client-password> <message-vpn>.").

(** [GuaranteedRequestor(solace, requestQueueName)]: the object and its
    first line, which reads the field [topicName] the object never
    gets. *)
Definition new (requestQueueName : string) : Requestor :=
  {| session := None; requestQueueName := requestQueueName;
     correlationID := JsNull; listening := ∅; flows := ∅ |}.

Definition banner : string :=
  nl +:+ "*** requestor to topic " +:+ dq +:+ to_str JsUndefined +:+ dq
     +:+ " is ready to connect ***".

(** The script: build the requestor on ['tutorial/requestqueue'], then
    [run]; the initialisation of the factory is left out as above. *)
Definition main (argv : list string) : Res Requestor unit :=
  (log banner ;;; run argv) (new "tutorial/requestqueue") boot.

(** An event reaches a listener only on a session or a flow that carries
    one. *)
Definition dispatch (e : Event) (r : Requestor) (w : World) : Res Requestor unit :=
  match e with
  | SessionEvent s code =>
      if bool_decide (s ∈ listening r) then
        match code with
        | UP_NOTICE => on_UP_NOTICE r w
        | CONNECTING => on_CONNECTING r w
        | DISCONNECTED => on_DISCONNECTED r w
        end
      else ret tt r w
  | FlowUp f =>
      match flows r !! f with
      | Some replyToQueue => on_flow_UP replyToQueue r w
      | None => ret tt r w
      end
  | FlowMessage f m =>
      match flows r !! f with
      | Some _ => on_flow_MESSAGE m r w
      | None => ret tt r w
      end
  | Elapse ms =>
      let '(w', effs) := elapse ms w in
      mkRes (Returned tt) r w' effs
  end.

(** A whole execution: the script, then the events. *)
Definition execution (argv : list string) (evs : list Event)
  : list Step * Requestor * World :=
  let r := main argv in
  let '(steps, r', w') := deliver dispatch evs (st r) (world r) in
  (mkStep None (outcome r) (emitted r) :: steps, r', w').
End WithSdk.
End GuaranteedRequestor.

(** ** Concrete runs, used to exercise the statements below *)

(** An SDK that never throws, one that always does. *)
Definition ok : Sdk := fun _ => None.
Definition failing : Sdk := fun _ => Some "OperationError".

Definition argv4 : list string :=
  ["node"; "sample.js"; "localhost:8008"; "user"; "pw"; "default"].


Definition stale_reply : Inbound :=
  {| getCorrelationId := JsString "SomeOtherID";
     getBinaryAttachment := JsString "Echo: stale";
     dump := "<dump>" |}.

Definition matching_reply : Inbound :=
  {| getCorrelationId := JsString "MyCorrelationID";
     getBinaryAttachment := JsString "Echo: Sample Request";
     dump := "<dump>" |}.

Definition connected_producer : QueueProducer.Producer :=
  {| QueueProducer.session := Some 0;
     QueueProducer.queueName := "tutorial/queue";
     QueueProducer.listening := {[0]} |}.

(** The requestor once its request is out, waiting on flow 2 of queue 1. *)
Definition waiting_requestor : GuaranteedRequestor.Requestor :=
  {| GuaranteedRequestor.session := Some 0;
     GuaranteedRequestor.requestQueueName := "tutorial/requestqueue";
     GuaranteedRequestor.correlationID := JsString "MyCorrelationID";
     GuaranteedRequestor.listening := {[0]};
     GuaranteedRequestor.flows := {[2 := 1]} |}.

(** ** The logger *)

(** What [log] reads from [new Date()]. *)
Record Date := {
  getHours : nat;
  getMinutes : nat;
  getSeconds : nat
}.

(** The string a number becomes in ['0' + n]. *)
Definition number_to_string (n : nat) : string :=
  NilEmpty.string_of_uint (Nat.to_uint n).

(** [s.slice(-k)]: the last [k] characters, all of [s] if it is shorter. *)
Definition slice_end (k : nat) (s : string) : string :=
  String.substring (String.length s - k) k s.

(** [('0' + n).slice(-2)] *)
Definition two_digits (n : nat) : string :=
  slice_end 2 ("0" +:+ number_to_string n).

(** [a.join(sep)] *)
Definition join (sep : string) (a : list string) : string := String.concat sep a.

(** ['[' + time.join(':') + '] '] *)
Definition timestamp (d : Date) : string :=
  let time := [two_digits (getHours d); two_digits (getMinutes d);
               two_digits (getSeconds d)] in
  "[" +:+ join ":" time +:+ "] ".

(** The argument [log] gives to [console.log] when the clock reads [d]; the
    call [ConsoleLog line] above stands for [console.log (printed d line)]. *)
Definition printed (d : Date) (line : string) : string :=
  timestamp d +:+ line.

(** * Vocabulary of the statements *)

#[local] Arguments String.append : simpl never.

(** The line printed when arguments are missing. *)
Definition usage : string :=
  "Cannot connect: expecting all arguments" +:+
  " <host:port> <client-username> <client-password> <message-vpn>.".

(** The message the producer sends, and the request of the requestor for
    the reply queue [q]. *)
Definition sample_message (queueName : string) : Message :=
  {| destination := Some (NamedDestination queueName QUEUE);
     binaryAttachment := JsString "Sample Message";
     replyTo := None;
     correlationId := JsNull;
     deliveryMode := PERSISTENT |}.

Definition sample_request (requestQueueName : string) (q : nat) : Message :=
  {| destination := Some (NamedDestination requestQueueName QUEUE);
     binaryAttachment := JsString "Sample Request";
     replyTo := Some (TemporaryQueue q);
     correlationId := JsString "MyCorrelationID";
     deliveryMode := PERSISTENT |}.

Definition sending_line (queueName : string) : string :=
  "Sending message " +:+ dq +:+ "Sample Message" +:+ dq +:+ " to queue "
    +:+ dq +:+ queueName +:+ dq +:+ "...".

Definition requesting_line (requestQueueName : string) : string :=
  "Sending request " +:+ dq +:+ "Sample Request" +:+ dq +:+ " to request queue "
    +:+ dq +:+ requestQueueName +:+ dq +:+ "...".

(** The world after a fallible call and after [setTimeout]. *)
Definition called (w : World) : World :=
  {| now := now w; timers := timers w; next_handle := next_handle w;
     sdk_calls := S (sdk_calls w); exited := exited w |}.

Definition scheduled (cb : TimerCallback) (delay : nat) (w : World) : World :=
  {| now := now w; timers := timers w ++ [(now w + delay, cb)];
     next_handle := next_handle w; sdk_calls := sdk_calls w; exited := exited w |}.

(** The calls of [disconnect], started in the world [w]: the line, then on
    a session [session.disconnect()] and the error logged if it throws. *)
Definition teardown (sdk : Sdk) (session : option nat) (w : World) : list Effect :=
  ConsoleLog "Disconnecting from Solace message router..." ::
  match session with
  | Some h =>
      SessionDisconnect h ::
      match sdk (sdk_calls w) with
      | None => []
      | Some error => [ConsoleLog error]
      end
  | None => [ConsoleLog "Not connected to Solace message router."]
  end.

Definition send_effects (sdk : Sdk) (p : QueueProducer.Producer) (w : World) : list Effect :=
  match QueueProducer.session p with
  | Some h =>
      [ConsoleLog (sending_line (QueueProducer.queueName p));
       SessionSend h (sample_message (QueueProducer.queueName p));
       ConsoleLog (match sdk (sdk_calls w) with
                   | None => "Message sent."
                   | Some error => error
                   end)]
  | None => [ConsoleLog "Cannot send messages because not connected to Solace message router."]
  end.

(** The world after one fallible call if there is a session. *)
Definition called_if (session : option nat) (w : World) : World :=
  match session with
  | Some _ => called w
  | None => w
  end.

Definition dispose_effects (session : option nat) : list Effect :=
  ConsoleLog "Disconnected." ::
  match session with
  | Some h => [SessionDispose h]
  | None => []
  end.

(** The line logged for a reply, by the comparison of its correlation
    identifier with the field [correlationID]. *)
Definition reply_line (r : GuaranteedRequestor.Requestor) (message : Inbound) : string :=
  if strict_eq (getCorrelationId message) (GuaranteedRequestor.correlationID r) then
    "Received reply: " +:+ dq +:+ to_str (getBinaryAttachment message)
      +:+ dq +:+ ", details:" +:+ nl +:+ dump message
  else
    "Received reply but correlation ID didn't match: " +:+ dq
      +:+ to_str (getBinaryAttachment message) +:+ dq +:+ ","
      +:+ " details:" +:+ nl +:+ dump message.

Definition reply_endpoint (q : nat) : Endpoint :=
  {| ep_destination := TemporaryQueue q;
     ep_durable := NON_DURABLE_GUARANTEED;
     ep_permissions := DELETE |}.

(** What [request] does on the session [h] when the next free handle is [n]:
    the temporary queue [n], the flow [S n] on it, its two listeners. *)
Definition request_effects (h n : nat) : list Effect :=
  [SessionCreateTemporaryQueue h n;
   SessionCreateSubscriberFlow h (S n) (reply_endpoint n);
   FlowOn (S n) UP; FlowOn (S n) MESSAGE; FlowConnect (S n)].

Definition allocated (n : nat) (w : World) : World :=
  {| now := now w; timers := timers w; next_handle := n + next_handle w;
     sdk_calls := sdk_calls w; exited := exited w |}.

(** A call is harmless for a property [Q] of sent messages when it is not a
    [session.send] or sends a message with [Q]. *)
Definition sends_only (Q : Message -> Prop) (e : Effect) : Prop :=
  match e with
  | SessionSend _ m => Q m
  | _ => True
  end.

(** A delivery to the requestor is of one of three kinds: it opens a reply
    listener (a session goes UP), it sends the request (a flow goes UP while
    there is a session), or it neither sends nor touches the flows. *)
Inductive Kind (r : GuaranteedRequestor.Requestor) (w : World) (e : Event)
    (res : Res GuaranteedRequestor.Requestor unit) : Prop :=
| Opens (s h : nat)
    (He : e = SessionEvent s UP_NOTICE)
    (Hs : GuaranteedRequestor.session r = Some h)
    (Hst : st res = GuaranteedRequestor.add_flow (S (next_handle w)) (next_handle w) r)
    (Heff : emitted res =
            ConsoleLog "=== Successfully connected and ready to send requests. ==="
              :: request_effects h (next_handle w))
| Requests (f q h : nat)
    (He : e = FlowUp f)
    (Hf : GuaranteedRequestor.flows r !! f = Some q)
    (Hs : GuaranteedRequestor.session r = Some h)
    (Hst : st res = GuaranteedRequestor.set_correlationID (JsString "MyCorrelationID") r)
    (Heff : emitted res =
            [ConsoleLog (requesting_line (GuaranteedRequestor.requestQueueName r));
             SessionSend h (sample_request (GuaranteedRequestor.requestQueueName r) q)])
| Quiet
    (Hsent : sent (emitted res) = [])
    (Hflows : GuaranteedRequestor.flows (st res) = GuaranteedRequestor.flows r).

(** In a list of observations, every request was sent after its reply flow
    was created and after the UP of that flow was delivered. *)
Definition Ordered (obs : list Obs) : Prop :=
  forall i s m, obs !! i = Some (Did (SessionSend s m)) ->
    exists q f s' k j,
      replyTo m = Some (TemporaryQueue q)
      /\ k < j /\ j < i
      /\ obs !! k = Some (Did (SessionCreateSubscriberFlow s' f (reply_endpoint q)))
      /\ obs !! j = Some (Delivered (FlowUp f)).

(** The flows the requestor listens on were created, on the queue their
    listeners closed over. *)
Definition Known (obs : list Obs) (r : GuaranteedRequestor.Requestor) : Prop :=
  forall f q, GuaranteedRequestor.flows r !! f = Some q ->
    exists k s', obs !! k = Some (Did (SessionCreateSubscriberFlow s' f (reply_endpoint q))).






(** The time that passes during a list of events. *)
Fixpoint elapsed (evs : list Event) : nat :=
  match evs with
  | [] => 0
  | Elapse ms :: evs' => ms + elapsed evs'
  | _ :: evs' => elapsed evs'
  end.

(** A listener neither moves the clock nor drops a pending timer. *)
Definition Keeps_timers (w w' : World) : Prop :=
  now w' = now w /\ forall tm, tm ∈ timers w -> tm ∈ timers w'.


(** A reply would leave the requestor waiting if handling it did nothing but
    log: no other call, and no timer set. *)
Definition Keeps_waiting (w : World) (res : Res GuaranteedRequestor.Requestor unit) : Prop :=
  timers (world res) = timers w
  /\ forall e, e ∈ emitted res -> exists line, e = ConsoleLog line.

Definition mismatch_line (message : Inbound) : string :=
  "Received reply but correlation ID didn't match: " +:+ dq
    +:+ to_str (getBinaryAttachment message) +:+ dq +:+ ","
    +:+ " details:" +:+ nl +:+ dump message.

(** The character of a decimal digit. *)
Definition digit (k : nat) : Ascii.ascii := Ascii.ascii_of_nat (48 + k).

(** A reading of the clock as [Date] gives it. *)
Definition clock_reading (d : Date) : Prop :=
  getHours d < 24 /\ getMinutes d < 60 /\ getSeconds d < 60.

(** The two figures of a number below 100. *)
Definition two_figures (n : nat) : string :=
  String (digit (n / 10)) (String (digit (n mod 10)) EmptyString).

(** The properties [connectToSolace] gives the session, the lines it logs
    before creating it, and the line it logs if [session.connect()] throws
    in the world [w]. *)
Definition session_properties (host username password vpn : JsVal) : SessionProperties :=
  {| url := "ws://" +:+ to_str host; vpnName := vpn;
     userName := username; password := password |}.

Definition connect_lines (host username vpn : JsVal) : list Effect :=
  [ConsoleLog ("Connecting to Solace message router using WebSocket transport url ws://"
                 +:+ to_str host);
   ConsoleLog ("Solace message router VPN name: " +:+ to_str vpn);
   ConsoleLog ("Client username: " +:+ to_str username)].

Definition connect_failure (sdk : Sdk) (w : World) : list Effect :=
  match sdk (sdk_calls w) with
  | Some error => [ConsoleLog error]
  | None => []
  end.

(** The lines among the calls. *)
Definition logged (effs : list Effect) : list string :=
  omap (fun e => match e with ConsoleLog line => Some line | _ => None end) effs.

(** The sessions created among the calls. *)
Definition created (effs : list Effect) : list (SessionProperties * nat) :=
  omap (fun e => match e with CreateSession p h => Some (p, h) | _ => None end) effs.

(** In [l], every call [b] comes after a call [a]. *)
Definition Preceded (a b : Effect) (l : list Effect) : Prop :=
  forall i, l !! i = Some b -> exists j, j < i /\ l !! j = Some a.

(** The calls made on a session object. *)
Definition uses_session (e : Effect) : bool :=
  match e with
  | SessionOn _ _ | SessionConnect _ | SessionCreateTemporaryQueue _ _
  | SessionCreateSubscriberFlow _ _ _ | SessionSend _ _ | SessionDisconnect _
  | SessionDispose _ => true
  | _ => false
  end.

(** In [l], no call on a session comes after a [session.dispose()]. *)
Definition Unused_after_dispose (l : list Effect) : Prop :=
  forall i j h e, l !! i = Some (SessionDispose h) -> i < j -> l !! j = Some e ->
                  uses_session e = false.

(** The calls a listener makes once the script has run: the log, the send,
    the teardown, the exit timer and the exit. *)
Inductive Listener_call : Effect -> Prop :=
| Call_log line : Listener_call (ConsoleLog line)
| Call_send h m : Listener_call (SessionSend h m)
| Call_disconnect h : Listener_call (SessionDisconnect h)
| Call_dispose h : Listener_call (SessionDispose h)
| Call_timer : Listener_call (SetTimeout CallProcessExit 1000)
| Call_exit : Listener_call ProcessExit.

(** The arguments [run] hands to [connect]. *)
Definition properties_of (argv : list string) : SessionProperties :=
  session_properties (at0 (slice 2 argv)) (at0 (slice 3 argv))
    (at0 (slice 4 argv)) (at0 (slice 5 argv)).

(** Case analysis on the first [n] positions of a list looked up at [i]. *)
Ltac scan_index i Hi n :=
  lazymatch n with
  | O => idtac
  | S ?k => destruct i as [| i]; [cbn in Hi; try discriminate | scan_index i Hi k]
  end.

(** No [session.dispose()] among the calls. *)
Definition Undisposed (l : list Effect) : Prop :=
  Forall (fun e => forall h, e <> SessionDispose h) l.

(** The number of UP_NOTICE among the events. *)
Fixpoint up_notices (evs : list Event) : nat :=
  match evs with
  | [] => 0
  | SessionEvent _ UP_NOTICE :: evs' => S (up_notices evs')
  | _ :: evs' => up_notices evs'
  end.

(** The line logged for a reply that matches. *)
Definition received_line (message : Inbound) : string :=
  "Received reply: " +:+ dq +:+ to_str (getBinaryAttachment message)
    +:+ dq +:+ ", details:" +:+ nl +:+ dump message.

(** No message on a flow among the events. *)
Definition No_reply (evs : list Event) : Prop :=
  Forall (fun e => forall f m, e <> FlowMessage f m) evs.

(** Nothing pending and the process alive. *)
Definition Idle (w : World) : Prop := timers w = [] /\ exited w = false.

(** The sessions [session.connect()] is called on, and the listeners put on
    sessions, among the calls. *)
Definition connects (effs : list Effect) : list nat :=
  omap (fun e => match e with SessionConnect h => Some h | _ => None end) effs.

Definition registered (effs : list Effect) : list (nat * SessionEventCode) :=
  omap (fun e => match e with SessionOn h code => Some (h, code) | _ => None end) effs.

(** The calls by which a sample ends itself: setting a timer, and
    [process.exit()]. *)
Definition exit_call (e : Effect) : bool :=
  match e with
  | SetTimeout _ _ | ProcessExit => true
  | _ => false
  end.

(** * Properties *)

(** C7: with fewer than the four arguments <host:port> <client-username>
    <client-password> <message-vpn> after the interpreter and the script
    name, [run] of either sample only prints the usage line: the object and
    the world are untouched, so no session is created and none is
    connected. *)
Theorem run_missing_arguments (sdk : Sdk) (node script : string) (args : list string)
    (Hargs : length args < 4) :
  (forall p w, QueueProducer.run sdk (node :: script :: args) p w
               = mkRes (Returned tt) p w [ConsoleLog usage])
  /\ (forall r w, GuaranteedRequestor.run sdk (node :: script :: args) r w
                  = mkRes (Returned tt) r w [ConsoleLog usage]).
Proof.
  assert (Hlen : bool_decide (2 + 4 <= length (node :: script :: args)) = false).
  { apply bool_decide_eq_false. cbn [length]. lia. }
  split; intros x w.
  - unfold QueueProducer.run. rewrite Hlen. reflexivity.
  - unfold GuaranteedRequestor.run. rewrite Hlen. reflexivity.
Qed.

Lemma run_missing_arguments_witness :
  length ["localhost:8008"; "user"] < 4
  /\ (forall p w, QueueProducer.run ok ["node"; "sample.js"; "localhost:8008"; "user"] p w
                  = mkRes (Returned tt) p w [ConsoleLog usage])
  /\ (forall r w, GuaranteedRequestor.run ok ["node"; "sample.js"; "localhost:8008"; "user"] r w
                  = mkRes (Returned tt) r w [ConsoleLog usage]).
Proof.
  split; [cbn; lia |].
  apply (run_missing_arguments ok "node" "sample.js" ["localhost:8008"; "user"]).
  cbn; lia.
Defined.

(** The whole script on too few arguments: the banner, the usage line, and
    a producer (a requestor) that still has no session. *)
Lemma main_missing_arguments (sdk : Sdk) :
  QueueProducer.main sdk ["node"; "sample.js"; "localhost:8008"]
  = mkRes (Returned tt) (QueueProducer.new "tutorial/queue") boot
      [ConsoleLog (QueueProducer.banner "tutorial/queue"); ConsoleLog usage]
  /\ GuaranteedRequestor.main sdk ["node"; "sample.js"; "localhost:8008"]
     = mkRes (Returned tt) (GuaranteedRequestor.new "tutorial/requestqueue") boot
         [ConsoleLog GuaranteedRequestor.banner; ConsoleLog usage].
Proof. split; reflexivity. Qed.

(** [connect] on a session that is there. *)
Lemma producer_connect_noop (sdk : Sdk) (host username password vpn : JsVal) p w h :
  QueueProducer.session p = Some h ->
  QueueProducer.connect sdk host username password vpn p w
  = mkRes (Returned tt) p w [ConsoleLog "Already connected and ready to send messages."].
Proof.
  intros Hs. unfold QueueProducer.connect, bind, gets. cbn. rewrite Hs. reflexivity.
Qed.

Lemma requestor_connect_noop (sdk : Sdk) (host username password vpn : JsVal) r w h :
  GuaranteedRequestor.session r = Some h ->
  GuaranteedRequestor.connect sdk host username password vpn r w
  = mkRes (Returned tt) r w [ConsoleLog "Already connected and ready to send requests."].
Proof.
  intros Hs. unfold GuaranteedRequestor.connect, bind, gets. cbn. rewrite Hs. reflexivity.
Qed.

(** Whatever [session.connect()] does, [connect] leaves a session in the
    field. *)
Lemma producer_connect_session (sdk : Sdk) (host username password vpn : JsVal) p w :
  is_Some (QueueProducer.session
             (st (QueueProducer.connect sdk host username password vpn p w))).
Proof.
  destruct (QueueProducer.session p) as [h|] eqn:E.
  - rewrite (producer_connect_noop _ _ _ _ _ _ _ h E). cbn. rewrite E. eauto.
  - unfold QueueProducer.connect, bind, gets. cbn. rewrite E.
    unfold QueueProducer.connectToSolace, bind, try_catch, fallible, log, emit,
      modify, fresh. cbn. destruct (sdk (sdk_calls w)); cbn; eauto.
Qed.

Lemma requestor_connect_session (sdk : Sdk) (host username password vpn : JsVal) r w :
  is_Some (GuaranteedRequestor.session
             (st (GuaranteedRequestor.connect sdk host username password vpn r w))).
Proof.
  destruct (GuaranteedRequestor.session r) as [h|] eqn:E.
  - rewrite (requestor_connect_noop _ _ _ _ _ _ _ h E). cbn. rewrite E. eauto.
  - unfold GuaranteedRequestor.connect, bind, gets. cbn. rewrite E.
    unfold GuaranteedRequestor.connectToSolace, bind, try_catch, fallible, log, emit,
      modify, fresh. cbn. destruct (sdk (sdk_calls w)); cbn; eauto.
Qed.

(** C9: [connect] on an object whose [session] is not [null] only logs: the
    object and the world (hence the handle counter: no session is created)
    are unchanged.  As [connect] leaves a session in the field whenever it
    returns, a second [connect] never changes what the first one left. *)
Theorem connect_already_connected (sdk : Sdk) (host username password vpn : JsVal) :
  (forall p w h, QueueProducer.session p = Some h ->
     QueueProducer.connect sdk host username password vpn p w
     = mkRes (Returned tt) p w
         [ConsoleLog "Already connected and ready to send messages."])
  /\ (forall r w h, GuaranteedRequestor.session r = Some h ->
        GuaranteedRequestor.connect sdk host username password vpn r w
        = mkRes (Returned tt) r w
            [ConsoleLog "Already connected and ready to send requests."])
  /\ (forall p w,
        let once := QueueProducer.connect sdk host username password vpn p w in
        let twice := QueueProducer.connect sdk host username password vpn
                       (st once) (world once) in
        st twice = st once /\ world twice = world once)
  /\ (forall r w,
        let once := GuaranteedRequestor.connect sdk host username password vpn r w in
        let twice := GuaranteedRequestor.connect sdk host username password vpn
                       (st once) (world once) in
        st twice = st once /\ world twice = world once).
Proof.
  split; [| split; [| split]].
  - intros p w h. apply producer_connect_noop.
  - intros r w h. apply requestor_connect_noop.
  - intros p w once twice. subst twice.
    destruct (producer_connect_session sdk host username password vpn p w) as [h Hs].
    fold once in Hs. rewrite (producer_connect_noop _ _ _ _ _ _ _ h Hs). split; reflexivity.
  - intros r w once twice. subst twice.
    destruct (requestor_connect_session sdk host username password vpn r w) as [h Hs].
    fold once in Hs. rewrite (requestor_connect_noop _ _ _ _ _ _ _ h Hs). split; reflexivity.
Qed.

Lemma connect_already_connected_witness :
  QueueProducer.session connected_producer = Some 0
  /\ QueueProducer.connect ok (JsString "localhost:8008") (JsString "user")
       (JsString "pw") (JsString "default") connected_producer boot
     = mkRes (Returned tt) connected_producer boot
         [ConsoleLog "Already connected and ready to send messages."]
  /\ GuaranteedRequestor.session waiting_requestor = Some 0
  /\ GuaranteedRequestor.connect ok (JsString "localhost:8008") (JsString "user")
       (JsString "pw") (JsString "default") waiting_requestor boot
     = mkRes (Returned tt) waiting_requestor boot
         [ConsoleLog "Already connected and ready to send requests."].
Proof.
  pose proof (connect_already_connected ok (JsString "localhost:8008") (JsString "user")
                (JsString "pw") (JsString "default")) as (HP & HR & _).
  split; [reflexivity |].
  split; [apply (HP connected_producer boot 0); reflexivity |].
  split; [reflexivity |].
  apply (HR waiting_requestor boot 0); reflexivity.
Defined.

(** What [sendMessage] does on a session, by the answer of the SDK. *)
Lemma sendMessage_connected (sdk : Sdk) p w h :
  QueueProducer.session p = Some h ->
  QueueProducer.sendMessage sdk p w
  = mkRes (Returned tt) p (called w)
      [ConsoleLog (sending_line (QueueProducer.queueName p));
       SessionSend h (sample_message (QueueProducer.queueName p));
       ConsoleLog (match sdk (sdk_calls w) with
                   | None => "Message sent."
                   | Some error => error
                   end)].
Proof.
  intros Hs. unfold QueueProducer.sendMessage, bind, gets, try_catch, fallible, log, emit.
  rewrite Hs. cbn. destruct (sdk (sdk_calls w)); reflexivity.
Qed.

(** What the listener of the flow's UP does. *)
Lemma on_flow_UP_connected (sdk : Sdk) q r w h :
  GuaranteedRequestor.session r = Some h ->
  GuaranteedRequestor.on_flow_UP sdk q r w
  = mkRes (match sdk (sdk_calls w) with
           | None => Returned tt
           | Some error => Threw error
           end)
      (GuaranteedRequestor.set_correlationID (JsString "MyCorrelationID") r)
      (called w)
      [ConsoleLog (requesting_line (GuaranteedRequestor.requestQueueName r));
       SessionSend h (sample_request (GuaranteedRequestor.requestQueueName r) q)].
Proof.
  intros Hs.
  unfold GuaranteedRequestor.on_flow_UP, bind, gets, modify, fallible, log, emit.
  cbn. rewrite Hs. destruct (sdk (sdk_calls w)); reflexivity.
Qed.

Lemma on_flow_UP_no_session (sdk : Sdk) q r w :
  GuaranteedRequestor.session r = None ->
  GuaranteedRequestor.on_flow_UP sdk q r w
  = mkRes (Threw "TypeError: Cannot read properties of null (reading 'send')")
      (GuaranteedRequestor.set_correlationID (JsString "MyCorrelationID") r) w
      [ConsoleLog (requesting_line (GuaranteedRequestor.requestQueueName r))].
Proof.
  intros Hs.
  unfold GuaranteedRequestor.on_flow_UP, bind, gets, modify, throw, log, emit.
  cbn. rewrite Hs. reflexivity.
Qed.

(** C4: without a session ([session] is [null]) [sendMessage] and [request]
    only log that the sample is not connected: nothing is handed to
    [session.send], no queue or flow is created, the object and the world
    are unchanged.  The listener of the flow's UP, run after the session was
    dropped, sends nothing either: it fails on the [null] session. *)
Theorem send_without_session (sdk : Sdk) :
  (forall p w, QueueProducer.session p = None ->
     QueueProducer.sendMessage sdk p w
     = mkRes (Returned tt) p w
         [ConsoleLog "Cannot send messages because not connected to Solace message router."])
  /\ (forall r w, GuaranteedRequestor.session r = None ->
        GuaranteedRequestor.request r w
        = mkRes (Returned tt) r w
            [ConsoleLog "Cannot send request because not connected to Solace message router."])
  /\ (forall q r w, GuaranteedRequestor.session r = None ->
        let res := GuaranteedRequestor.on_flow_UP sdk q r w in
        sent (emitted res) = [] /\ exists error, outcome res = Threw error).
Proof.
  split; [| split].
  - intros p w Hs. unfold QueueProducer.sendMessage, bind, gets. cbn.
    rewrite Hs. reflexivity.
  - intros r w Hs. unfold GuaranteedRequestor.request, bind, gets. cbn.
    rewrite Hs. reflexivity.
  - intros q r w Hs res. subst res. rewrite (on_flow_UP_no_session sdk q r w Hs).
    split; [reflexivity | eauto].
Qed.

Lemma send_without_session_witness :
  QueueProducer.session (QueueProducer.new "tutorial/queue") = None
  /\ QueueProducer.sendMessage ok (QueueProducer.new "tutorial/queue") boot
     = mkRes (Returned tt) (QueueProducer.new "tutorial/queue") boot
         [ConsoleLog "Cannot send messages because not connected to Solace message router."]
  /\ GuaranteedRequestor.session (GuaranteedRequestor.new "tutorial/requestqueue") = None
  /\ GuaranteedRequestor.request (GuaranteedRequestor.new "tutorial/requestqueue") boot
     = mkRes (Returned tt) (GuaranteedRequestor.new "tutorial/requestqueue") boot
         [ConsoleLog "Cannot send request because not connected to Solace message router."].
Proof.
  pose proof (send_without_session ok) as (HP & HR & _).
  split; [reflexivity |].
  split; [apply (HP (QueueProducer.new "tutorial/queue") boot); reflexivity |].
  split; [reflexivity |].
  apply (HR (GuaranteedRequestor.new "tutorial/requestqueue") boot); reflexivity.
Defined.

Lemma producer_exit_spec (sdk : Sdk) p w :
  QueueProducer.exit sdk p w
  = mkRes (Returned tt) p
      (scheduled CallProcessExit 1000
         (match QueueProducer.session p with Some _ => called w | None => w end))
      (teardown sdk (QueueProducer.session p) w ++ [SetTimeout CallProcessExit 1000]).
Proof.
  unfold QueueProducer.exit, QueueProducer.disconnect, bind, gets, try_catch,
    fallible, setTimeout, log, emit, teardown, scheduled, called.
  cbn. destruct (QueueProducer.session p); cbn; [| reflexivity].
  destruct (sdk (sdk_calls w)); cbn; reflexivity.
Qed.

Lemma requestor_exit_spec (sdk : Sdk) r w :
  GuaranteedRequestor.exit sdk r w
  = mkRes (Returned tt) r
      (scheduled CallProcessExit 1000
         (match GuaranteedRequestor.session r with Some _ => called w | None => w end))
      (teardown sdk (GuaranteedRequestor.session r) w ++ [SetTimeout CallProcessExit 1000]).
Proof.
  unfold GuaranteedRequestor.exit, GuaranteedRequestor.disconnect, bind, gets, try_catch,
    fallible, setTimeout, log, emit, teardown, scheduled, called.
  cbn. destruct (GuaranteedRequestor.session r); cbn; [| reflexivity].
  destruct (sdk (sdk_calls w)); cbn; reflexivity.
Qed.

Lemma sent_app (a b : list Effect) : sent (a ++ b) = sent a ++ sent b.
Proof. unfold sent. apply omap_app. Qed.

Lemma sent_teardown (sdk : Sdk) s w : sent (teardown sdk s w) = [].
Proof.
  unfold teardown. destruct s; cbn; [| reflexivity].
  destruct (sdk (sdk_calls w)); reflexivity.
Qed.

(** C6: on a producer of ['tutorial/queue'] that has a session,
    [sendMessage] returns without throwing, whatever [session.send] does,
    and hands exactly one message to [session.send]: the persistent message
    to the queue ['tutorial/queue'] carrying ['Sample Message']; when the
    SDK accepts it, the producer logs ['Message sent.'].  The listener of
    UP_NOTICE, which runs [sendMessage] and then [exit], sends that one
    message and nothing else. *)
Theorem sendMessage_once (sdk : Sdk) (p : QueueProducer.Producer) (w : World) (h : nat)
    (Hs : QueueProducer.session p = Some h)
    (Hq : QueueProducer.queueName p = "tutorial/queue") :
  let res := QueueProducer.sendMessage sdk p w in
  let m := {| destination := Some (NamedDestination "tutorial/queue" QUEUE);
              binaryAttachment := JsString "Sample Message";
              replyTo := None;
              correlationId := JsNull;
              deliveryMode := PERSISTENT |} in
  outcome res = Returned tt
  /\ sent (emitted res) = [m]
  /\ (sdk (sdk_calls w) = None ->
      emitted res = [ConsoleLog (sending_line "tutorial/queue"); SessionSend h m;
                     ConsoleLog "Message sent."])
  /\ outcome (QueueProducer.on_UP_NOTICE sdk p w) = Returned tt
  /\ sent (emitted (QueueProducer.on_UP_NOTICE sdk p w)) = [m].
Proof.
  intros res m. subst res.
  assert (Hup : QueueProducer.on_UP_NOTICE sdk p w
                = mkRes (Returned tt) p (scheduled CallProcessExit 1000 (called (called w)))
                    (ConsoleLog "=== Successfully connected and ready to send messages. ==="
                     :: emitted (QueueProducer.sendMessage sdk p w)
                     ++ teardown sdk (Some h) (called w)
                     ++ [SetTimeout CallProcessExit 1000])).
  { unfold QueueProducer.on_UP_NOTICE, bind, log, emit.
    rewrite (sendMessage_connected sdk p w h Hs), producer_exit_spec, Hs. reflexivity. }
  rewrite Hup. rewrite (sendMessage_connected sdk p w h Hs), Hq.
  change (sample_message "tutorial/queue") with m.
  split; [reflexivity |].
  split; [reflexivity |].
  split; [intros Hok; rewrite Hok; reflexivity |].
  split; [reflexivity |].
  cbn [emitted]. change (ConsoleLog ?x :: ?l) with ([ConsoleLog x] ++ l).
  rewrite !sent_app, sent_teardown. reflexivity.
Qed.

Lemma sendMessage_once_witness :
  QueueProducer.session connected_producer = Some 0
  /\ QueueProducer.queueName connected_producer = "tutorial/queue"
  /\ outcome (QueueProducer.sendMessage failing connected_producer boot) = Returned tt
  /\ sent (emitted (QueueProducer.sendMessage failing connected_producer boot))
     = [sample_message "tutorial/queue"].
Proof.
  pose proof (sendMessage_once failing connected_producer boot 0 eq_refl eq_refl)
    as (Ho & Hm & _).
  split; [reflexivity |]. split; [reflexivity |]. split; [exact Ho | exact Hm].
Defined.

(** ** The listeners, as equations *)

Lemma sendMessage_spec (sdk : Sdk) p w :
  QueueProducer.sendMessage sdk p w
  = mkRes (Returned tt) p (called_if (QueueProducer.session p) w) (send_effects sdk p w).
Proof.
  unfold send_effects, called_if.
  destruct (QueueProducer.session p) as [h|] eqn:Hs.
  - apply sendMessage_connected, Hs.
  - unfold QueueProducer.sendMessage, bind, gets. rewrite Hs. reflexivity.
Qed.

Lemma producer_on_UP_NOTICE_spec (sdk : Sdk) p w :
  QueueProducer.on_UP_NOTICE sdk p w
  = mkRes (Returned tt) p
      (scheduled CallProcessExit 1000
         (called_if (QueueProducer.session p) (called_if (QueueProducer.session p) w)))
      (ConsoleLog "=== Successfully connected and ready to send messages. ==="
       :: send_effects sdk p w
       ++ teardown sdk (QueueProducer.session p) (called_if (QueueProducer.session p) w)
       ++ [SetTimeout CallProcessExit 1000]).
Proof.
  unfold QueueProducer.on_UP_NOTICE, bind, log, emit.
  rewrite sendMessage_spec, producer_exit_spec. reflexivity.
Qed.

Lemma producer_on_DISCONNECTED_spec p w :
  QueueProducer.on_DISCONNECTED p w
  = mkRes (Returned tt)
      (match QueueProducer.session p with
       | Some _ => QueueProducer.set_session None p
       | None => p
       end) w (dispose_effects (QueueProducer.session p)).
Proof.
  unfold QueueProducer.on_DISCONNECTED, dispose_effects, bind, gets, modify, ret, log, emit.
  destruct (QueueProducer.session p); reflexivity.
Qed.

Lemma requestor_on_DISCONNECTED_spec r w :
  GuaranteedRequestor.on_DISCONNECTED r w
  = mkRes (Returned tt)
      (match GuaranteedRequestor.session r with
       | Some _ => GuaranteedRequestor.set_session None r
       | None => r
       end) w (dispose_effects (GuaranteedRequestor.session r)).
Proof.
  unfold GuaranteedRequestor.on_DISCONNECTED, dispose_effects, bind, gets, modify, ret,
    log, emit.
  destruct (GuaranteedRequestor.session r); reflexivity.
Qed.

Lemma on_flow_MESSAGE_spec (sdk : Sdk) message r w :
  GuaranteedRequestor.on_flow_MESSAGE sdk message r w
  = mkRes (Returned tt) r
      (scheduled CallProcessExit 1000 (called_if (GuaranteedRequestor.session r) w))
      (ConsoleLog (reply_line r message)
       :: teardown sdk (GuaranteedRequestor.session r) w
       ++ [SetTimeout CallProcessExit 1000]).
Proof.
  unfold GuaranteedRequestor.on_flow_MESSAGE, reply_line, bind, gets, log, emit.
  destruct (strict_eq _ _); rewrite requestor_exit_spec; reflexivity.
Qed.

Lemma request_connected r w h :
  GuaranteedRequestor.session r = Some h ->
  GuaranteedRequestor.request r w
  = mkRes (Returned tt)
      (GuaranteedRequestor.add_flow (S (next_handle w)) (next_handle w) r)
      (allocated 2 w)
      (request_effects h (next_handle w)).
Proof.
  intros Hs. unfold GuaranteedRequestor.request, bind, gets, modify, fresh, emit.
  rewrite Hs. reflexivity.
Qed.

Lemma request_no_session r w :
  GuaranteedRequestor.session r = None ->
  GuaranteedRequestor.request r w
  = mkRes (Returned tt) r w
      [ConsoleLog "Cannot send request because not connected to Solace message router."].
Proof.
  intros Hs. unfold GuaranteedRequestor.request, bind, gets. rewrite Hs. reflexivity.
Qed.

(** ** Invariants of the delivery of events *)

(** The calls made while timers run are calls of [process.exit]. *)
Lemma elapse_effects (ms : nat) (w : World) :
  Forall (fun e => e = ProcessExit) (elapse ms w).2.
Proof.
  unfold elapse. cbn.
  induction (filter _ (timers w)) as [| [t []] l IH]; cbn; [constructor |].
  constructor; [reflexivity | exact IH].
Qed.

(** A property of the calls of every listener holds of a whole delivery. *)
Lemma deliver_effects_Forall {St} (dispatch : Event -> St -> World -> Res St unit)
    (P : Effect -> Prop)
    (Hd : forall e s w, Forall P (emitted (dispatch e s w))) :
  forall evs s w, Forall P (effects (deliver dispatch evs s w).1.1).
Proof.
  induction evs as [| e evs IH]; intros s w; cbn; [constructor |].
  destruct (exited w); [constructor |].
  specialize (IH (st (dispatch e s w)) (world (dispatch e s w))).
  destruct (deliver dispatch evs _ _) as [[steps s'] w']. cbn in *.
  unfold effects in *. cbn. apply Forall_app. split; [apply Hd | exact IH].
Qed.

Lemma sends_only_sent (Q : Message -> Prop) (effs : list Effect) :
  Forall (sends_only Q) effs -> Forall Q (sent effs).
Proof.
  induction 1 as [| e effs He _ IH]; cbn; [constructor |].
  destruct e; cbn in *; try exact IH. constructor; assumption.
Qed.

Lemma sends_only_elapse (Q : Message -> Prop) (ms : nat) (w : World) :
  Forall (sends_only Q) (elapse ms w).2.
Proof.
  eapply Forall_impl; [apply elapse_effects |]. intros e ->. exact I.
Qed.

Lemma sends_only_teardown (Q : Message -> Prop) (sdk : Sdk) s w :
  Forall (sends_only Q) (teardown sdk s w).
Proof.
  unfold teardown. destruct s; [destruct (sdk (sdk_calls w)) |]; repeat constructor.
Qed.

(** Every message a listener of the producer sends is persistent. *)
Lemma producer_dispatch_persistent (sdk : Sdk) e p w :
  Forall (sends_only (fun m => deliveryMode m = PERSISTENT))
    (emitted (QueueProducer.dispatch sdk e p w)).
Proof.
  destruct e as [s code | f | f m | ms]; unfold QueueProducer.dispatch.
  - case_bool_decide; [| constructor].
    destruct code.
    + rewrite producer_on_UP_NOTICE_spec. cbn [emitted].
      constructor; [exact I |]. apply Forall_app. split.
      * unfold send_effects. destruct (QueueProducer.session p); repeat constructor.
      * apply Forall_app. split; [apply sends_only_teardown | repeat constructor].
    + constructor.
    + rewrite producer_on_DISCONNECTED_spec. cbn [emitted]. unfold dispose_effects.
      destruct (QueueProducer.session p); repeat constructor.
  - constructor.
  - constructor.
  - pose proof (sends_only_elapse (fun m => deliveryMode m = PERSISTENT) ms w) as H.
    destruct (elapse ms w). exact H.
Qed.

Lemma requestor_dispatch_persistent (sdk : Sdk) e r w :
  Forall (sends_only (fun m => deliveryMode m = PERSISTENT))
    (emitted (GuaranteedRequestor.dispatch sdk e r w)).
Proof.
  destruct e as [s code | f | f m | ms]; unfold GuaranteedRequestor.dispatch.
  - case_bool_decide; [| constructor].
    destruct code.
    + unfold GuaranteedRequestor.on_UP_NOTICE, bind, log, emit.
      destruct (GuaranteedRequestor.session r) as [h|] eqn:Hs.
      * rewrite (request_connected r w h Hs). repeat constructor.
      * rewrite (request_no_session r w Hs). repeat constructor.
    + repeat constructor.
    + rewrite requestor_on_DISCONNECTED_spec. cbn [emitted]. unfold dispose_effects.
      destruct (GuaranteedRequestor.session r); repeat constructor.
  - destruct (GuaranteedRequestor.flows r !! f) as [q|]; [| constructor].
    destruct (GuaranteedRequestor.session r) as [h|] eqn:Hs.
    + rewrite (on_flow_UP_connected sdk q r w h Hs). repeat constructor.
    + rewrite (on_flow_UP_no_session sdk q r w Hs). repeat constructor.
  - destruct (GuaranteedRequestor.flows r !! f) as [q|]; [| constructor].
    rewrite on_flow_MESSAGE_spec. cbn [emitted].
    constructor; [exact I |]. apply Forall_app.
    split; [apply sends_only_teardown | repeat constructor].
  - pose proof (sends_only_elapse (fun m => deliveryMode m = PERSISTENT) ms w) as H.
    destruct (elapse ms w). exact H.
Qed.

(** The scripts themselves send nothing and open no flow before the first
    event. *)
Lemma producer_main_sent (sdk : Sdk) argv : sent (emitted (QueueProducer.main sdk argv)) = [].
Proof.
  unfold QueueProducer.main, QueueProducer.run, QueueProducer.connect,
    QueueProducer.connectToSolace.
  case_bool_decide;
    unfold bind, gets, modify, try_catch, fallible, fresh, log, emit; cbn; [| reflexivity].
  destruct (sdk 0); reflexivity.
Qed.

Lemma requestor_main_sent (sdk : Sdk) argv :
  sent (emitted (GuaranteedRequestor.main sdk argv)) = []
  /\ GuaranteedRequestor.flows (st (GuaranteedRequestor.main sdk argv)) = ∅.
Proof.
  unfold GuaranteedRequestor.main, GuaranteedRequestor.run, GuaranteedRequestor.connect,
    GuaranteedRequestor.connectToSolace.
  case_bool_decide;
    unfold bind, gets, modify, try_catch, fallible, fresh, log, emit; cbn;
    [| split; reflexivity].
  destruct (sdk 0); split; reflexivity.
Qed.

Lemma producer_execution_sent (sdk : Sdk) argv evs :
  sent (effects (QueueProducer.execution sdk argv evs).1.1)
  = sent (effects (deliver (QueueProducer.dispatch sdk) evs
                     (st (QueueProducer.main sdk argv))
                     (world (QueueProducer.main sdk argv))).1.1).
Proof.
  unfold QueueProducer.execution.
  cbv zeta. destruct (deliver _ evs _ _) as [[steps p'] w'].
  unfold effects. cbn [fst map concat step_effects].
  rewrite sent_app, producer_main_sent. reflexivity.
Qed.

Lemma requestor_execution_sent (sdk : Sdk) argv evs :
  sent (effects (GuaranteedRequestor.execution sdk argv evs).1.1)
  = sent (effects (deliver (GuaranteedRequestor.dispatch sdk) evs
                     (st (GuaranteedRequestor.main sdk argv))
                     (world (GuaranteedRequestor.main sdk argv))).1.1).
Proof.
  unfold GuaranteedRequestor.execution.
  cbv zeta. destruct (deliver _ evs _ _) as [[steps p'] w'].
  unfold effects. cbn [fst map concat step_effects].
  rewrite sent_app, (proj1 (requestor_main_sent sdk argv)). reflexivity.
Qed.

(** C3: in every execution of either sample, whatever the arguments, the
    events delivered and the answers of the SDK, every message handed to
    [session.send] has the delivery mode PERSISTENT. *)
Theorem sent_messages_persistent (sdk : Sdk) (argv : list string) (evs : list Event) :
  Forall (fun m => deliveryMode m = PERSISTENT)
    (sent (effects (QueueProducer.execution sdk argv evs).1.1))
  /\ Forall (fun m => deliveryMode m = PERSISTENT)
       (sent (effects (GuaranteedRequestor.execution sdk argv evs).1.1)).
Proof.
  split.
  - rewrite producer_execution_sent. apply sends_only_sent.
    apply deliver_effects_Forall. apply producer_dispatch_persistent.
  - rewrite requestor_execution_sent. apply sends_only_sent.
    apply deliver_effects_Forall. apply requestor_dispatch_persistent.
Qed.

(** The statement is about messages that are really sent. *)
Example sent_messages_persistent_run :
  sent (effects (QueueProducer.execution ok argv4 [SessionEvent 0 UP_NOTICE]).1.1)
  = [sample_message "tutorial/queue"]
  /\ sent (effects (GuaranteedRequestor.execution ok argv4
                     [SessionEvent 0 UP_NOTICE; FlowUp 2]).1.1)
     = [sample_request "tutorial/requestqueue" 1].
Proof. split; vm_compute; reflexivity. Qed.

(** ** The deliveries to the requestor, by kind *)

Lemma sent_elapse (ms : nat) (w : World) : sent (elapse ms w).2 = [].
Proof.
  pose proof (elapse_effects ms w) as H.
  induction H as [| e l -> _ IH]; [reflexivity | exact IH].
Qed.

Lemma requestor_dispatch_kind (sdk : Sdk) e r w :
  Kind r w e (GuaranteedRequestor.dispatch sdk e r w).
Proof.
  destruct e as [s code | f | f m | ms]; unfold GuaranteedRequestor.dispatch.
  - case_bool_decide; [| apply Quiet; reflexivity].
    destruct code.
    + unfold GuaranteedRequestor.on_UP_NOTICE, bind, log, emit.
      destruct (GuaranteedRequestor.session r) as [h|] eqn:Hs.
      * rewrite (request_connected r w h Hs).
        apply (Opens _ _ _ _ s h); [reflexivity | exact Hs | reflexivity | reflexivity].
      * rewrite (request_no_session r w Hs). apply Quiet; reflexivity.
    + apply Quiet; reflexivity.
    + rewrite requestor_on_DISCONNECTED_spec.
      apply Quiet; cbn [emitted st]; unfold dispose_effects;
        destruct (GuaranteedRequestor.session r); reflexivity.
  - destruct (GuaranteedRequestor.flows r !! f) as [q|] eqn:Hf; [| apply Quiet; reflexivity].
    destruct (GuaranteedRequestor.session r) as [h|] eqn:Hs.
    + rewrite (on_flow_UP_connected sdk q r w h Hs).
      apply (Requests _ _ _ _ f q h); auto.
    + rewrite (on_flow_UP_no_session sdk q r w Hs). apply Quiet; reflexivity.
  - destruct (GuaranteedRequestor.flows r !! f) as [q|] eqn:Hf; [| apply Quiet; reflexivity].
    rewrite on_flow_MESSAGE_spec. apply Quiet; [| reflexivity].
    cbn [emitted]. change (ConsoleLog ?x :: ?l) with ([ConsoleLog x] ++ l).
    rewrite !sent_app, sent_teardown. reflexivity.
  - pose proof (sent_elapse ms w) as H. destruct (elapse ms w) as [w' effs].
    apply Quiet; [exact H | reflexivity].
Qed.

(** ** The reply listener is up before the request goes out *)

Lemma Known_app obs more r : Known obs r -> Known (obs ++ more) r.
Proof.
  intros H f q Hf. destruct (H f q Hf) as (k & s' & Hk).
  exists k, s'. apply lookup_app_l_Some, Hk.
Qed.

Lemma no_send_lookup (effs : list Effect) i s m :
  sent effs = [] -> map Did effs !! i <> Some (Did (SessionSend s m)).
Proof.
  intros Hsent Hi.
  change (map Did effs) with (Did <$> effs) in Hi.
  rewrite list_lookup_fmap in Hi.
  destruct (effs !! i) as [e|] eqn:He; [| discriminate].
  cbn in Hi. injection Hi as ->.
  assert (Hin : m ∈ sent effs).
  { unfold sent. apply list_elem_of_omap. exists (SessionSend s m).
    split; [eapply list_elem_of_lookup_2, He | reflexivity]. }
  rewrite Hsent in Hin. inversion Hin.
Qed.

Lemma Ordered_app_quiet obs e effs :
  Ordered obs -> sent effs = [] -> Ordered (obs ++ Delivered e :: map Did effs).
Proof.
  intros Hord Hsent i s m Hi.
  apply lookup_app_Some in Hi as [Hi | [Hle Hi]].
  - destruct (Hord i s m Hi) as (q & f & s' & k & j & Hr & Hkj & Hji & Hk & Hj).
    exists q, f, s', k, j. repeat split; auto using lookup_app_l_Some.
  - destruct (i - length obs) as [| n]; [discriminate |].
    cbn in Hi. exfalso. exact (no_send_lookup effs n s m Hsent Hi).
Qed.

Lemma dispatch_ordered (sdk : Sdk) e r w obs :
  Ordered obs -> Known obs r ->
  Ordered (obs ++ Delivered e :: map Did (emitted (GuaranteedRequestor.dispatch sdk e r w)))
  /\ Known (obs ++ Delivered e :: map Did (emitted (GuaranteedRequestor.dispatch sdk e r w)))
       (st (GuaranteedRequestor.dispatch sdk e r w)).
Proof.
  intros Hord Hknown.
  destruct (requestor_dispatch_kind sdk e r w)
    as [s h He Hs Hst Heff | f q h He Hf Hs Hst Heff | Hsent Hflows].
  - rewrite Heff, Hst. split.
    + apply Ordered_app_quiet; [exact Hord | reflexivity].
    + intros f0 q0 Hf0. cbn in Hf0.
      apply lookup_insert_Some in Hf0 as [[<- <-] | [_ Hf0]].
      * exists (length obs + 3), h. rewrite lookup_app_r by lia.
        replace (length obs + 3 - length obs) with 3 by lia. reflexivity.
      * destruct (Hknown f0 q0 Hf0) as (k & s' & Hk).
        exists k, s'. apply lookup_app_l_Some, Hk.
  - rewrite Heff, Hst. split.
    + intros i s m Hi.
      apply lookup_app_Some in Hi as [Hi | [Hle Hi]].
      * destruct (Hord i s m Hi) as (q' & f' & s' & k & j & Hr & Hkj & Hji & Hk & Hj).
        exists q', f', s', k, j. repeat split; auto using lookup_app_l_Some.
      * destruct (Hknown f q Hf) as (k & s' & Hk).
        pose proof (lookup_lt_Some _ _ _ Hk) as Hlt.
        destruct (i - length obs) as [| [| [| n]]] eqn:Hd; cbn in Hi; try discriminate.
        injection Hi as <- <-.
        exists q, f, s', k, (length obs).
        split; [reflexivity |]. split; [exact Hlt |]. split; [lia |].
        split; [apply lookup_app_l_Some, Hk |].
        rewrite lookup_app_r by lia. rewrite Nat.sub_diag. rewrite He. reflexivity.
    + apply Known_app. exact Hknown.
  - split.
    + apply Ordered_app_quiet; assumption.
    + intros f q Hf. rewrite Hflows in Hf.
      destruct (Hknown f q Hf) as (k & s' & Hk).
      exists k, s'. apply lookup_app_l_Some, Hk.
Qed.

Lemma deliver_ordered (sdk : Sdk) :
  forall evs obs r w, Ordered obs -> Known obs r ->
    Ordered (obs ++ observations (deliver (GuaranteedRequestor.dispatch sdk) evs r w).1.1).
Proof.
  induction evs as [| e evs IH]; intros obs r w Hord Hknown; cbn [deliver].
  - cbn. rewrite app_nil_r. exact Hord.
  - destruct (exited w); [cbn; rewrite app_nil_r; exact Hord |].
    destruct (dispatch_ordered sdk e r w obs Hord Hknown) as [Hord' Hknown'].
    specialize (IH _ _ (world (GuaranteedRequestor.dispatch sdk e r w)) Hord' Hknown').
    destruct (deliver _ evs _ _) as [[steps r'] w'].
    cbn [fst] in *. unfold observations in *. cbn [map concat].
    unfold observe at 1. cbn [step_event step_effects].
    rewrite <- app_assoc in IH. exact IH.
Qed.

(** C5: in every execution of the requestor, a request handed to
    [session.send] carries as [replyTo] a temporary queue [q], and before
    that call, in this order, the subscriber flow on [q] was created and the
    UP of that flow was delivered: no request goes out before its reply
    listener is up. *)
Theorem reply_flow_up_before_request (sdk : Sdk) (argv : list string) (evs : list Event)
    (i s : nat) (m : Message)
    (Hsend : observations (GuaranteedRequestor.execution sdk argv evs).1.1 !! i
             = Some (Did (SessionSend s m))) :
  exists q f s' k j,
    replyTo m = Some (TemporaryQueue q)
    /\ k < j /\ j < i
    /\ observations (GuaranteedRequestor.execution sdk argv evs).1.1 !! k
       = Some (Did (SessionCreateSubscriberFlow s' f (reply_endpoint q)))
    /\ observations (GuaranteedRequestor.execution sdk argv evs).1.1 !! j
       = Some (Delivered (FlowUp f)).
Proof.
  revert i s m Hsend. change (Ordered (observations (GuaranteedRequestor.execution sdk argv evs).1.1)).
  destruct (requestor_main_sent sdk argv) as [Hsent Hflows].
  assert (Hord0 : Ordered (map Did (emitted (GuaranteedRequestor.main sdk argv)))).
  { intros i s m Hi. exfalso. exact (no_send_lookup _ i s m Hsent Hi). }
  assert (Hknown0 : Known (map Did (emitted (GuaranteedRequestor.main sdk argv)))
                      (st (GuaranteedRequestor.main sdk argv))).
  { intros f q Hf. rewrite Hflows in Hf. rewrite lookup_empty in Hf. discriminate. }
  pose proof (deliver_ordered sdk evs _ _ (world (GuaranteedRequestor.main sdk argv))
                Hord0 Hknown0) as H.
  unfold GuaranteedRequestor.execution. cbv zeta.
  destruct (deliver _ evs _ _) as [[steps r'] w'].
  cbn [fst] in *. unfold observations in *. cbn [map concat].
  unfold observe at 1. cbn [step_event step_effects app]. exact H.
Qed.

Lemma reply_flow_up_before_request_witness :
  observations (GuaranteedRequestor.execution ok argv4
                  [SessionEvent 0 UP_NOTICE; FlowUp 2]).1.1 !! 18
  = Some (Did (SessionSend 0 (sample_request "tutorial/requestqueue" 1)))
  /\ exists q f s' k j,
       replyTo (sample_request "tutorial/requestqueue" 1) = Some (TemporaryQueue q)
       /\ k < j /\ j < 18
       /\ observations (GuaranteedRequestor.execution ok argv4
                          [SessionEvent 0 UP_NOTICE; FlowUp 2]).1.1 !! k
          = Some (Did (SessionCreateSubscriberFlow s' f (reply_endpoint q)))
       /\ observations (GuaranteedRequestor.execution ok argv4
                          [SessionEvent 0 UP_NOTICE; FlowUp 2]).1.1 !! j
          = Some (Delivered (FlowUp f)).
Proof.
  split; [vm_compute; reflexivity |].
  apply (reply_flow_up_before_request ok argv4 [SessionEvent 0 UP_NOTICE; FlowUp 2] 18 0).
  vm_compute; reflexivity.
Defined.

(** ** The correlation identifier *)








(** ** Timers *)

Lemma Keeps_timers_refl w : Keeps_timers w w.
Proof. split; auto. Qed.

Lemma Keeps_timers_called_if s w : Keeps_timers w (called_if s w).
Proof. destruct s; split; auto. Qed.

Lemma Keeps_timers_scheduled cb d w w' :
  Keeps_timers w w' -> Keeps_timers w (scheduled cb d w').
Proof.
  intros [Hn Ht]. split; [exact Hn |].
  intros tm Hin. cbn. apply elem_of_app. left. auto.
Qed.



Lemma requestor_dispatch_timers (sdk : Sdk) e r w :
  (forall ms, e <> Elapse ms) ->
  Keeps_timers w (world (GuaranteedRequestor.dispatch sdk e r w)).
Proof.
  intros Hne. destruct e as [s code | f | f m | ms]; unfold GuaranteedRequestor.dispatch.
  - case_bool_decide; [| apply Keeps_timers_refl].
    destruct code.
    + unfold GuaranteedRequestor.on_UP_NOTICE, bind, log, emit.
      destruct (GuaranteedRequestor.session r) as [h|] eqn:Hs.
      * rewrite (request_connected r w h Hs). split; auto.
      * rewrite (request_no_session r w Hs). apply Keeps_timers_refl.
    + apply Keeps_timers_refl.
    + rewrite requestor_on_DISCONNECTED_spec. apply Keeps_timers_refl.
  - destruct (GuaranteedRequestor.flows r !! f) as [q|]; [| apply Keeps_timers_refl].
    destruct (GuaranteedRequestor.session r) as [h|] eqn:Hs.
    + rewrite (on_flow_UP_connected sdk q r w h Hs). split; auto.
    + rewrite (on_flow_UP_no_session sdk q r w Hs). apply Keeps_timers_refl.
  - destruct (GuaranteedRequestor.flows r !! f) as [q|]; [| apply Keeps_timers_refl].
    rewrite on_flow_MESSAGE_spec. cbn [world].
    apply Keeps_timers_scheduled, Keeps_timers_called_if.
  - destruct (Hne ms eq_refl).
Qed.

(** When the time of a pending timer has come, [process.exit] runs;
    otherwise the timer stays. *)
Lemma elapse_fires ms w d cb :
  (d, cb) ∈ timers w -> d <= now w + ms ->
  exited (elapse ms w).1 = true /\ ProcessExit ∈ (elapse ms w).2.
Proof.
  intros Hin Hd. unfold elapse. cbn.
  assert (Hf : (d, cb) ∈ filter (fun tm => due (now w + ms) tm = true) (timers w)).
  { apply list_elem_of_filter. split; [| exact Hin].
    unfold due. apply bool_decide_eq_true. exact Hd. }
  split.
  - apply orb_true_iff. right. apply bool_decide_eq_true.
    intros Hnil. rewrite Hnil in Hf. inversion Hf.
  - apply list_elem_of_In, in_concat. exists (run_callback cb).
    split; [| destruct cb; left; reflexivity].
    apply in_map_iff. exists (d, cb). split; [reflexivity |].
    apply list_elem_of_In. exact Hf.
Qed.

Lemma elapse_waits ms w d cb :
  (d, cb) ∈ timers w -> now w + ms < d ->
  (d, cb) ∈ timers (elapse ms w).1 /\ now (elapse ms w).1 = now w + ms.
Proof.
  intros Hin Hd. unfold elapse. cbn. split; [| reflexivity].
  apply list_elem_of_filter. split; [| exact Hin].
  unfold due. apply bool_decide_eq_false. cbn. lia.
Qed.


Lemma deliver_exited {St} (dispatch : Event -> St -> World -> Res St unit) evs s w :
  exited w = true -> deliver dispatch evs s w = ([], s, w).
Proof. intros H. destruct evs; cbn; [| rewrite H]; reflexivity. Qed.

(** A process with a timer pending for a time to come has exited once the
    events delivered have let that time pass, whatever else they were. *)
Lemma deliver_exits {St} (dispatch : Event -> St -> World -> Res St unit)
    (Hkeep : forall e s w, (forall ms, e <> Elapse ms) ->
               Keeps_timers w (world (dispatch e s w)))
    (Htime : forall ms s w, world (dispatch (Elapse ms) s w) = (elapse ms w).1) :
  forall evs s w d cb,
    (d, cb) ∈ timers w -> now w < d -> d <= now w + elapsed evs ->
    exited (deliver dispatch evs s w).2 = true.
Proof.
  induction evs as [| e evs IH]; intros s w d cb Hin Hlt Hd; cbn [deliver].
  - cbn in Hd. lia.
  - destruct (exited w) eqn:Hex; [exact Hex |].
    assert (Hgoal : exited (deliver dispatch evs (st (dispatch e s w))
                              (world (dispatch e s w))).2 = true).
    { assert (Hcase : (exists ms, e = Elapse ms) \/ ~ (exists ms, e = Elapse ms)).
      { destruct e; [right | right | right | left; eauto]; intros [ms Hms]; discriminate. }
      destruct Hcase as [[ms ->] | Hne].
      - rewrite Htime. cbn [elapsed] in Hd.
        destruct (decide (d <= now w + ms)) as [Hdue | Hnot].
        + destruct (elapse_fires ms w d cb Hin Hdue) as [Hexit _].
          rewrite deliver_exited by exact Hexit. exact Hexit.
        + destruct (elapse_waits ms w d cb Hin ltac:(lia)) as [Hin' Hnow].
          apply (IH _ _ d cb Hin'); lia.
      - assert (Hne' : forall ms, e <> Elapse ms) by (intros ms ->; apply Hne; eauto).
        destruct (Hkeep e s w Hne') as [Hnow Hsub].
        apply (IH _ _ d cb (Hsub _ Hin)); [lia |].
        rewrite Hnow. destruct e; cbn [elapsed] in Hd; try exact Hd.
        destruct (Hne' ms eq_refl). }
    destruct (deliver dispatch evs _ _) as [[steps s'] w']. exact Hgoal.
Qed.

(** ** Leaving: [exit] after the send and after a reply *)



Lemma requestor_dispatch_elapse (sdk : Sdk) ms r w :
  world (GuaranteedRequestor.dispatch sdk (Elapse ms) r w) = (elapse ms w).1.
Proof. unfold GuaranteedRequestor.dispatch. destruct (elapse ms w). reflexivity. Qed.

Lemma called_if_now s w : now (called_if s w) = now w.
Proof. destruct s; reflexivity. Qed.

Lemma called_if_timers s w : timers (called_if s w) = timers w.
Proof. destruct s; reflexivity. Qed.



(** The end of both samples on concrete runs, the SDK failing on every
    call: the exit still comes with the thousandth millisecond. *)
Example exit_after_one_second_run :
  exited (QueueProducer.execution failing argv4
            [SessionEvent 0 UP_NOTICE; Elapse 999]).2 = false
  /\ exited (QueueProducer.execution failing argv4
               [SessionEvent 0 UP_NOTICE; Elapse 999; Elapse 1]).2 = true
  /\ exited (GuaranteedRequestor.execution ok argv4
               [SessionEvent 0 UP_NOTICE; FlowUp 2; FlowMessage 2 matching_reply;
                SessionEvent 0 DISCONNECTED; Elapse 999]).2 = false
  /\ exited (GuaranteedRequestor.execution ok argv4
               [SessionEvent 0 UP_NOTICE; FlowUp 2; FlowMessage 2 matching_reply;
                SessionEvent 0 DISCONNECTED; Elapse 1000]).2 = true.
Proof. repeat split; vm_compute; reflexivity. Qed.


(** ** Replies *)

(** C2, as the sample has it: a reply whose correlation identifier differs
    from [requestor.correlationID] is logged as a mismatch and no error is
    raised; the requestor does not go on waiting: it then disconnects and
    sets the exit timer, as for a matching reply. *)
Theorem unmatched_reply_logged (sdk : Sdk) (message : Inbound)
    (r : GuaranteedRequestor.Requestor) (w : World)
    (Hdiff : strict_eq (getCorrelationId message) (GuaranteedRequestor.correlationID r)
             = false) :
  let res := GuaranteedRequestor.on_flow_MESSAGE sdk message r w in
  outcome res = Returned tt
  /\ st res = r
  /\ emitted res = ConsoleLog (mismatch_line message)
                     :: teardown sdk (GuaranteedRequestor.session r) w
                     ++ [SetTimeout CallProcessExit 1000]
  /\ timers (world res) = timers w ++ [(now w + 1000, CallProcessExit)]
  /\ ~ Keeps_waiting w res.
Proof.
  intros res. subst res. rewrite on_flow_MESSAGE_spec. cbn [outcome st emitted world].
  unfold reply_line. rewrite Hdiff. fold (mismatch_line message).
  split; [reflexivity |]. split; [reflexivity |]. split; [reflexivity |].
  split; [cbn; rewrite called_if_now, called_if_timers; reflexivity |].
  intros [Ht _]. cbn in Ht. rewrite called_if_timers in Ht.
  apply (f_equal length) in Ht. rewrite length_app in Ht. cbn in Ht. lia.
Qed.

Lemma unmatched_reply_logged_witness :
  strict_eq (getCorrelationId stale_reply)
    (GuaranteedRequestor.correlationID waiting_requestor) = false
  /\ emitted (GuaranteedRequestor.on_flow_MESSAGE ok stale_reply waiting_requestor boot)
     = ConsoleLog (mismatch_line stale_reply)
         :: teardown ok (GuaranteedRequestor.session waiting_requestor) boot
         ++ [SetTimeout CallProcessExit 1000].
Proof.
  split; [reflexivity |].
  destruct (unmatched_reply_logged ok stale_reply waiting_requestor boot eq_refl)
    as (_ & _ & H & _).
  exact H.
Defined.

(** C2, as the specification states it, fails: the reply [stale_reply] does
    not match the identifier the requestor waits for, yet handling it
    disconnects the session and sets the exit timer; one second later the
    process is gone, no matching reply having come. *)
Lemma unmatched_reply_ends_wait :
  strict_eq (getCorrelationId stale_reply)
    (GuaranteedRequestor.correlationID waiting_requestor) = false
  /\ ~ Keeps_waiting boot
         (GuaranteedRequestor.on_flow_MESSAGE ok stale_reply waiting_requestor boot)
  /\ emitted (GuaranteedRequestor.on_flow_MESSAGE ok stale_reply waiting_requestor boot)
     = [ConsoleLog (mismatch_line stale_reply);
        ConsoleLog "Disconnecting from Solace message router...";
        SessionDisconnect 0;
        SetTimeout CallProcessExit 1000]
  /\ exited (GuaranteedRequestor.execution ok argv4
               [SessionEvent 0 UP_NOTICE; FlowUp 2; FlowMessage 2 stale_reply;
                Elapse 1000]).2 = true.
Proof.
  split; [reflexivity |]. split; [| split; vm_compute; reflexivity].
  intros [Ht _]. vm_compute in Ht. discriminate.
Qed.

(** C10: a message delivered on a flow of the requestor is logged, as a
    reply or as a mismatch, and whichever it is the listener goes on to
    [exit]: it calls [disconnect] and sets the exit timer, and the process
    has exited once 1000 ms have passed.  Two messages are handled alike but
    for the logged line, and neither leaves the requestor waiting. *)
Theorem any_reply_ends_requestor (sdk : Sdk) (f q : nat) (message : Inbound)
    (r : GuaranteedRequestor.Requestor) (w : World)
    (Hflow : GuaranteedRequestor.flows r !! f = Some q) :
  let res := GuaranteedRequestor.dispatch sdk (FlowMessage f message) r w in
  outcome res = Returned tt
  /\ st res = r
  /\ emitted res = ConsoleLog (reply_line r message)
                     :: emitted (GuaranteedRequestor.exit sdk r w)
  /\ emitted (GuaranteedRequestor.exit sdk r w)
     = teardown sdk (GuaranteedRequestor.session r) w ++ [SetTimeout CallProcessExit 1000]
  /\ (now w + 1000, CallProcessExit) ∈ timers (world res)
  /\ ~ Keeps_waiting w res
  /\ (forall evs, 1000 <= elapsed evs ->
        exited (deliver (GuaranteedRequestor.dispatch sdk) evs (st res) (world res)).2 = true)
  /\ forall other,
       let res' := GuaranteedRequestor.dispatch sdk (FlowMessage f other) r w in
       world res' = world res /\ st res' = st res
       /\ tail (emitted res') = tail (emitted res).
Proof.
  intros res. subst res. unfold GuaranteedRequestor.dispatch. rewrite Hflow.
  rewrite on_flow_MESSAGE_spec, requestor_exit_spec. cbn [outcome st emitted world].
  split; [reflexivity |]. split; [reflexivity |]. split; [reflexivity |].
  split; [reflexivity |]. split.
  - cbn. apply elem_of_app. right. rewrite called_if_now.
    apply list_elem_of_singleton. reflexivity.
  - split; [| split].
    + intros [Ht _]. cbn in Ht. rewrite called_if_timers in Ht.
      apply (f_equal length) in Ht. rewrite length_app in Ht. cbn in Ht. lia.
    + intros evs Hevs.
      apply (deliver_exits _ (requestor_dispatch_timers sdk) (requestor_dispatch_elapse sdk)
               evs r _ (now w + 1000) CallProcessExit).
      * cbn. apply elem_of_app. right. rewrite called_if_now.
        apply list_elem_of_singleton. reflexivity.
      * cbn. rewrite called_if_now. lia.
      * cbn. rewrite called_if_now. lia.
    + intros other. rewrite on_flow_MESSAGE_spec.
      split; [reflexivity |]. split; reflexivity.
Qed.

Lemma any_reply_ends_requestor_witness :
  GuaranteedRequestor.flows waiting_requestor !! 2 = Some 1
  /\ emitted (GuaranteedRequestor.dispatch ok (FlowMessage 2 stale_reply)
                waiting_requestor boot)
     = ConsoleLog (reply_line waiting_requestor stale_reply)
         :: emitted (GuaranteedRequestor.exit ok waiting_requestor boot)
  /\ tail (emitted (GuaranteedRequestor.dispatch ok (FlowMessage 2 matching_reply)
                      waiting_requestor boot))
     = tail (emitted (GuaranteedRequestor.dispatch ok (FlowMessage 2 stale_reply)
                        waiting_requestor boot)).
Proof.
  split; [reflexivity |].
  destruct (any_reply_ends_requestor ok 2 1 stale_reply waiting_requestor boot eq_refl)
    as (_ & _ & He & _ & _ & _ & _ & Hother).
  split; [exact He |].
  destruct (Hother matching_reply) as (_ & _ & Ht). exact Ht.
Defined.

(** * Further properties *)

(** ** The timestamp of [log] *)

Lemma substring_length (n m : nat) (s : string) :
  n + m <= String.length s -> String.length (String.substring n m s) = m.
Proof.
  revert n m. induction s as [| c s IH]; intros n m H; cbn in H.
  - assert (n = 0) as -> by lia. assert (m = 0) as -> by lia. reflexivity.
  - destruct n as [| n]; cbn.
    + destruct m as [| m]; cbn; [reflexivity |]. f_equal. apply (IH 0 m). lia.
    + apply IH. lia.
Qed.

Lemma number_to_string_nonempty (n : nat) : 1 <= String.length (number_to_string n).
Proof.
  unfold number_to_string.
  assert (Hnn : Nat.to_uint n <> Decimal.Nil).
  { rewrite <- (DecimalNat.Unsigned.of_to n) at 1.
    rewrite DecimalNat.Unsigned.to_of. apply DecimalFacts.unorm_nonnil. }
  destruct (Nat.to_uint n); [congruence | | | | | | | | | |]; cbn; lia.
Qed.

Lemma two_digits_length (n : nat) : String.length (two_digits n) = 2.
Proof.
  unfold two_digits, slice_end. apply substring_length.
  pose proof (number_to_string_nonempty n).
  change ("0" +:+ number_to_string n) with (String (digit 0) (number_to_string n)).
  cbn [String.length]. lia.
Qed.

Lemma two_digits_below_100 (n : nat) :
  n < 100 -> two_digits n = two_figures n.
Proof.
  intros Hn.
  assert (Hall : forallb (fun k => bool_decide
            (two_digits k = two_figures k))
            (seq 0 100) = true) by (vm_compute; reflexivity).
  rewrite forallb_forall in Hall.
  specialize (Hall n). rewrite bool_decide_eq_true in Hall.
  apply Hall. apply in_seq. lia.
Qed.

Lemma string_length_app (a b : string) :
  String.length (a +:+ b) = String.length a + String.length b.
Proof.
  induction a as [| c a IH]; [reflexivity |].
  change (String c a +:+ b) with (String c (a +:+ b)).
  cbn [String.length]. rewrite IH. reflexivity.
Qed.

Lemma substring_all (s : string) : String.substring 0 (String.length s) s = s.
Proof. induction s as [| c s IH]; cbn; [reflexivity | rewrite IH; reflexivity]. Qed.

Lemma substring_after (a b : string) :
  String.substring (String.length a) (String.length b) (a +:+ b) = b.
Proof.
  induction a as [| c a IH]; [apply substring_all |].
  change (String c a +:+ b) with (String c (a +:+ b)). exact IH.
Qed.

Lemma string_app_inv (a a' b b' : string) :
  String.length a = String.length a' -> a +:+ b = a' +:+ b' -> a = a' /\ b = b'.
Proof.
  revert a'. induction a as [| c a IH]; intros [| c' a'] Hlen Heq;
    try discriminate Hlen.
  - auto.
  - change (String c (a +:+ b) = String c' (a' +:+ b')) in Heq.
    injection Heq as -> Heq. injection Hlen as Hlen.
    destruct (IH a' Hlen Heq) as [-> ->]. auto.
Qed.

Lemma digit_inj (k k' : nat) : k < 10 -> k' < 10 -> digit k = digit k' -> k = k'.
Proof.
  intros Hk Hk' Heq. unfold digit in Heq.
  apply (f_equal Ascii.nat_of_ascii) in Heq.
  rewrite !Ascii.nat_ascii_embedding in Heq by lia. lia.
Qed.

Lemma two_figures_inj (n n' : nat) :
  n < 100 -> n' < 100 -> two_figures n = two_figures n' -> n = n'.
Proof.
  intros Hn Hn' Heq. unfold two_figures in Heq.
  assert (Hhi : digit (n / 10) = digit (n' / 10)) by congruence.
  assert (Hlo : digit (n mod 10) = digit (n' mod 10)) by congruence.
  apply digit_inj in Hhi;
    [| apply Nat.Div0.div_lt_upper_bound; lia | apply Nat.Div0.div_lt_upper_bound; lia].
  apply digit_inj in Hlo; [| apply Nat.mod_upper_bound; lia | apply Nat.mod_upper_bound; lia].
  rewrite (Nat.div_mod_eq n 10), (Nat.div_mod_eq n' 10). lia.
Qed.

Lemma timestamp_length (d : Date) : String.length (timestamp d) = 11.
Proof.
  unfold timestamp, join. cbn [String.concat].
  rewrite !string_length_app, !two_digits_length. reflexivity.
Qed.

Lemma timestamp_reading (d : Date) :
  clock_reading d ->
  timestamp d = "[" +:+ two_figures (getHours d) +:+ ":"
                    +:+ two_figures (getMinutes d) +:+ ":"
                    +:+ two_figures (getSeconds d) +:+ "] ".
Proof.
  intros (Hh & Hm & Hs). unfold timestamp, join. cbn [String.concat].
  rewrite !two_digits_below_100 by lia. reflexivity.
Qed.

(** X1: the timestamp [log] puts before a line has 11 characters whatever
    the clock returns, and on a reading of the clock it is [[hh:mm:ss] ],
    each field written with its two decimal figures. *)
Theorem timestamp_format (d : Date) :
  String.length (timestamp d) = 11
  /\ (clock_reading d ->
      timestamp d = "[" +:+ two_figures (getHours d) +:+ ":"
                        +:+ two_figures (getMinutes d) +:+ ":"
                        +:+ two_figures (getSeconds d) +:+ "] ").
Proof.
  split; [apply timestamp_length | apply timestamp_reading].
Qed.

Lemma timestamp_format_witness :
  clock_reading {| getHours := 9; getMinutes := 5; getSeconds := 42 |}
  /\ timestamp {| getHours := 9; getMinutes := 5; getSeconds := 42 |} = "[09:05:42] ".
Proof.
  split; [unfold clock_reading; cbn; lia |].
  destruct (timestamp_format {| getHours := 9; getMinutes := 5; getSeconds := 42 |})
    as [_ H].
  rewrite H; [reflexivity | unfold clock_reading; cbn; lia].
Defined.

(** X2: the line given to [log] is what follows the first 11 characters of
    what is printed, and two printed lines are equal only if both the clock
    readings and the lines are. *)
Theorem printed_line_recovered (d d' : Date) (line line' : string) :
  String.substring 11 (String.length line) (printed d line) = line
  /\ (clock_reading d -> clock_reading d' ->
      printed d line = printed d' line' -> d = d' /\ line = line').
Proof.
  split.
  - unfold printed. rewrite <- (timestamp_length d). apply substring_after.
  - intros (Hh & Hm & Hs) (Hh' & Hm' & Hs') Heq. unfold printed in Heq.
    apply string_app_inv in Heq as [Hts ->];
      [| rewrite !timestamp_length; reflexivity].
    split; [| reflexivity].
    rewrite (timestamp_reading d), (timestamp_reading d') in Hts
      by (unfold clock_reading; lia).
    apply (string_app_inv "[" "[") in Hts as [_ Hts]; [| reflexivity].
    apply string_app_inv in Hts as [H1 Hts]; [| reflexivity].
    apply (string_app_inv ":" ":") in Hts as [_ Hts]; [| reflexivity].
    apply string_app_inv in Hts as [H2 Hts]; [| reflexivity].
    apply (string_app_inv ":" ":") in Hts as [_ Hts]; [| reflexivity].
    apply string_app_inv in Hts as [H3 _]; [| reflexivity].
    apply two_figures_inj in H1; [| lia | lia].
    apply two_figures_inj in H2; [| lia | lia].
    apply two_figures_inj in H3; [| lia | lia].
    destruct d, d'. cbn in *. congruence.
Qed.

Lemma printed_line_recovered_witness :
  clock_reading {| getHours := 23; getMinutes := 59; getSeconds := 59 |}
  /\ printed {| getHours := 23; getMinutes := 59; getSeconds := 59 |} "Disconnected."
     = "[23:59:59] Disconnected."
  /\ ({| getHours := 23; getMinutes := 59; getSeconds := 59 |}
      = {| getHours := 23; getMinutes := 59; getSeconds := 59 |}
      /\ "Disconnected." = "Disconnected.").
Proof.
  split; [unfold clock_reading; cbn; lia |].
  split; [vm_compute; reflexivity |].
  destruct (printed_line_recovered
              {| getHours := 23; getMinutes := 59; getSeconds := 59 |}
              {| getHours := 23; getMinutes := 59; getSeconds := 59 |}
              "Disconnected." "Disconnected.") as [_ H].
  apply H; [unfold clock_reading; cbn; lia | unfold clock_reading; cbn; lia | reflexivity].
Defined.

(** Past the range of a clock the field keeps its last two figures. *)
Example two_digits_edge :
  two_digits 0 = "00" /\ two_digits 7 = "07" /\ two_digits 59 = "59"
  /\ two_digits 123 = "23".
Proof. repeat split; vm_compute; reflexivity. Qed.

(** ** Connecting *)

Lemma at0_slice (n : nat) (a : list string) :
  at0 (slice n a) = match a !! n with
                    | Some x => JsString x
                    | None => JsUndefined
                    end.
Proof.
  unfold at0, slice. rewrite lookup_drop, Nat.add_0_r. reflexivity.
Qed.

Lemma producer_connectToSolace_spec (sdk : Sdk) host username password vpn p w :
  QueueProducer.connectToSolace sdk host username password vpn p w
  = mkRes (Returned tt)
      (QueueProducer.add_listening (next_handle w)
         (QueueProducer.set_session (Some (next_handle w)) p))
      (called (allocated 1 w))
      (connect_lines host username vpn
       ++ [CreateSession (session_properties host username password vpn) (next_handle w);
           SessionOn (next_handle w) UP_NOTICE;
           SessionOn (next_handle w) DISCONNECTED;
           SessionConnect (next_handle w)]
       ++ connect_failure sdk w).
Proof.
  unfold QueueProducer.connectToSolace, connect_failure, bind, modify, fresh,
    try_catch, fallible, log, emit.
  cbn. destruct (sdk (sdk_calls w)); reflexivity.
Qed.

Lemma requestor_connectToSolace_spec (sdk : Sdk) host username password vpn r w :
  GuaranteedRequestor.connectToSolace sdk host username password vpn r w
  = mkRes (Returned tt)
      (GuaranteedRequestor.add_listening (next_handle w)
         (GuaranteedRequestor.set_session (Some (next_handle w)) r))
      (called (allocated 1 w))
      (connect_lines host username vpn
       ++ [CreateSession (session_properties host username password vpn) (next_handle w);
           SessionOn (next_handle w) UP_NOTICE;
           SessionOn (next_handle w) CONNECTING;
           SessionOn (next_handle w) DISCONNECTED;
           SessionConnect (next_handle w)]
       ++ connect_failure sdk w).
Proof.
  unfold GuaranteedRequestor.connectToSolace, connect_failure, bind, modify, fresh,
    try_catch, fallible, log, emit.
  cbn. destruct (sdk (sdk_calls w)); reflexivity.
Qed.

Lemma producer_connect_fresh (sdk : Sdk) host username password vpn p w :
  QueueProducer.session p = None ->
  QueueProducer.connect sdk host username password vpn p w
  = QueueProducer.connectToSolace sdk host username password vpn p w.
Proof.
  intros Hs. unfold QueueProducer.connect, bind, gets. rewrite Hs.
  destruct (QueueProducer.connectToSolace sdk host username password vpn p w).
  rewrite app_nil_l. reflexivity.
Qed.

Lemma requestor_connect_fresh (sdk : Sdk) host username password vpn r w :
  GuaranteedRequestor.session r = None ->
  GuaranteedRequestor.connect sdk host username password vpn r w
  = GuaranteedRequestor.connectToSolace sdk host username password vpn r w.
Proof.
  intros Hs. unfold GuaranteedRequestor.connect, bind, gets. rewrite Hs.
  destruct (GuaranteedRequestor.connectToSolace sdk host username password vpn r w).
  rewrite app_nil_l. reflexivity.
Qed.

Lemma producer_run_connects (sdk : Sdk) node script host user pw vpn extra :
  QueueProducer.run sdk (node :: script :: host :: user :: pw :: vpn :: extra)
  = QueueProducer.connect sdk (JsString host) (JsString user) (JsString pw) (JsString vpn).
Proof.
  unfold QueueProducer.run. rewrite bool_decide_eq_true_2 by (cbn; lia).
  rewrite !at0_slice. reflexivity.
Qed.

Lemma requestor_run_connects (sdk : Sdk) node script host user pw vpn extra :
  GuaranteedRequestor.run sdk (node :: script :: host :: user :: pw :: vpn :: extra)
  = GuaranteedRequestor.connect sdk (JsString host) (JsString user) (JsString pw)
      (JsString vpn).
Proof.
  unfold GuaranteedRequestor.run. rewrite bool_decide_eq_true_2 by (cbn; lia).
  rewrite !at0_slice. reflexivity.
Qed.

Lemma created_connect_lines host username vpn :
  created (connect_lines host username vpn) = []
  /\ registered (connect_lines host username vpn) = []
  /\ connects (connect_lines host username vpn) = [].
Proof. repeat split. Qed.

Lemma omitted_connect_failure (sdk : Sdk) w :
  created (connect_failure sdk w) = []
  /\ registered (connect_failure sdk w) = []
  /\ connects (connect_failure sdk w) = [].
Proof. unfold connect_failure. destruct (sdk (sdk_calls w)); repeat split. Qed.

(** X3: given the four arguments, and any more after them, [run] on an
    object without session asks for no session but one with the URL
    ['ws://'] and the first argument, the user name of the second, the
    password of the third and the VPN of the fourth.  When [run] returns,
    that session is in the field [session], the listeners of UP_NOTICE and
    DISCONNECTED (and of CONNECTING, in the requestor) were put on it, and
    [session.connect()] was called on it once, on no other.  The arguments
    past the fourth are ignored. *)
Theorem run_with_arguments (sdk : Sdk) (node script host user pw vpn : string)
    (extra : list string) :
  let props := {| url := "ws://" +:+ host; vpnName := JsString vpn;
                  userName := JsString user; password := JsString pw |} in
  (forall p w, QueueProducer.session p = None ->
     let res := QueueProducer.run sdk
                  (node :: script :: host :: user :: pw :: vpn :: extra) p w in
     Forall (fun c => c.1 = props) (created (emitted res))
     /\ length (created (emitted res)) <= 1
     /\ (outcome res = Returned tt ->
         exists h, created (emitted res) = [(props, h)]
                   /\ QueueProducer.session (st res) = Some h
                   /\ registered (emitted res) = [(h, UP_NOTICE); (h, DISCONNECTED)]
                   /\ connects (emitted res) = [h]))
  /\ (forall r w, GuaranteedRequestor.session r = None ->
        let res := GuaranteedRequestor.run sdk
                     (node :: script :: host :: user :: pw :: vpn :: extra) r w in
        Forall (fun c => c.1 = props) (created (emitted res))
        /\ length (created (emitted res)) <= 1
        /\ (outcome res = Returned tt ->
            exists h, created (emitted res) = [(props, h)]
                      /\ GuaranteedRequestor.session (st res) = Some h
                      /\ registered (emitted res)
                         = [(h, UP_NOTICE); (h, CONNECTING); (h, DISCONNECTED)]
                      /\ connects (emitted res) = [h])).
Proof.
  intros props. split.
  - intros p w Hs res. subst res.
    rewrite producer_run_connects, (producer_connect_fresh _ _ _ _ _ _ _ Hs),
      producer_connectToSolace_spec. cbn [outcome st emitted].
    destruct (created_connect_lines (JsString host) (JsString user) (JsString vpn))
      as (Hc & Hr & Hk).
    destruct (omitted_connect_failure sdk w) as (Hc' & Hr' & Hk').
    assert (Hcreated : created (connect_lines (JsString host) (JsString user) (JsString vpn)
                         ++ [CreateSession
                               (session_properties (JsString host) (JsString user)
                                  (JsString pw) (JsString vpn)) (next_handle w);
                             SessionOn (next_handle w) UP_NOTICE;
                             SessionOn (next_handle w) DISCONNECTED;
                             SessionConnect (next_handle w)]
                         ++ connect_failure sdk w) = [(props, next_handle w)]).
    { unfold created in *. rewrite !omap_app, Hc, Hc'. reflexivity. }
    rewrite Hcreated.
    split; [repeat constructor |]. split; [cbn; lia |].
    intros _. exists (next_handle w). split; [reflexivity |]. split; [reflexivity |].
    unfold registered, connects in *. rewrite !omap_app, Hr, Hr', Hk, Hk'.
    split; reflexivity.
  - intros r w Hs res. subst res.
    rewrite requestor_run_connects, (requestor_connect_fresh _ _ _ _ _ _ _ Hs),
      requestor_connectToSolace_spec. cbn [outcome st emitted].
    destruct (created_connect_lines (JsString host) (JsString user) (JsString vpn))
      as (Hc & Hr & Hk).
    destruct (omitted_connect_failure sdk w) as (Hc' & Hr' & Hk').
    assert (Hcreated : created (connect_lines (JsString host) (JsString user) (JsString vpn)
                         ++ [CreateSession
                               (session_properties (JsString host) (JsString user)
                                  (JsString pw) (JsString vpn)) (next_handle w);
                             SessionOn (next_handle w) UP_NOTICE;
                             SessionOn (next_handle w) CONNECTING;
                             SessionOn (next_handle w) DISCONNECTED;
                             SessionConnect (next_handle w)]
                         ++ connect_failure sdk w) = [(props, next_handle w)]).
    { unfold created in *. rewrite !omap_app, Hc, Hc'. reflexivity. }
    rewrite Hcreated.
    split; [repeat constructor |]. split; [cbn; lia |].
    intros _. exists (next_handle w). split; [reflexivity |]. split; [reflexivity |].
    unfold registered, connects in *. rewrite !omap_app, Hr, Hr', Hk, Hk'.
    split; reflexivity.
Qed.

Lemma run_with_arguments_witness :
  QueueProducer.session (QueueProducer.new "tutorial/queue") = None
  /\ outcome (QueueProducer.run ok
                ["node"; "sample.js"; "localhost:8008"; "user"; "pw"; "default"; "more"]
                (QueueProducer.new "tutorial/queue") boot) = Returned tt
  /\ exists h,
       QueueProducer.session
         (st (QueueProducer.run ok
                ["node"; "sample.js"; "localhost:8008"; "user"; "pw"; "default"; "more"]
                (QueueProducer.new "tutorial/queue") boot)) = Some h
       /\ connects
            (emitted (QueueProducer.run ok
                        ["node"; "sample.js"; "localhost:8008"; "user"; "pw"; "default";
                         "more"]
                        (QueueProducer.new "tutorial/queue") boot)) = [h].
Proof.
  split; [reflexivity |]. split; [reflexivity |].
  destruct (run_with_arguments ok "node" "sample.js" "localhost:8008" "user" "pw"
              "default" ["more"]) as [H _].
  destruct (H (QueueProducer.new "tutorial/queue") boot eq_refl) as (_ & _ & Hret).
  destruct (Hret eq_refl) as (h & _ & Hs & _ & Hk).
  exists h. split; [exact Hs | exact Hk].
Defined.

(** X4: the lines [connectToSolace] logs do not depend on the password: with
    another password, everything else alike, it logs the same lines. *)
Theorem password_not_logged (sdk : Sdk) (host username vpn password password' : JsVal) :
  (forall p w,
     logged (emitted (QueueProducer.connectToSolace sdk host username password vpn p w))
     = logged (emitted (QueueProducer.connectToSolace sdk host username password' vpn p w)))
  /\ (forall r w,
        logged (emitted (GuaranteedRequestor.connectToSolace sdk host username password
                           vpn r w))
        = logged (emitted (GuaranteedRequestor.connectToSolace sdk host username password'
                             vpn r w))).
Proof.
  split; intros x w.
  - rewrite !producer_connectToSolace_spec. cbn [emitted]. unfold logged.
    rewrite !omap_app. reflexivity.
  - rewrite !requestor_connectToSolace_spec. cbn [emitted]. unfold logged.
    rewrite !omap_app. reflexivity.
Qed.

(** X5: when [session.connect()] throws, [connect] logs the error and
    returns; the session it created stays in the field.  A second [connect]
    is therefore refused as already connected, and the sending functions
    take the session for usable: [sendMessage] hands its message to it and
    [request] creates its queue and flow on it. *)
Theorem connect_failure_keeps_session (sdk : Sdk) (error : string)
    (host username password vpn : JsVal) (w : World)
    (Hthrows : sdk (sdk_calls w) = Some error) :
  (forall p, QueueProducer.session p = None ->
     let res := QueueProducer.connect sdk host username password vpn p w in
     outcome res = Returned tt
     /\ last (emitted res) = Some (ConsoleLog error)
     /\ QueueProducer.session (st res) = Some (next_handle w)
     /\ emitted (QueueProducer.connect sdk host username password vpn (st res) (world res))
        = [ConsoleLog "Already connected and ready to send messages."]
     /\ sent (emitted (QueueProducer.sendMessage sdk (st res) (world res)))
        = [sample_message (QueueProducer.queueName p)])
  /\ (forall r, GuaranteedRequestor.session r = None ->
        let res := GuaranteedRequestor.connect sdk host username password vpn r w in
        outcome res = Returned tt
        /\ last (emitted res) = Some (ConsoleLog error)
        /\ GuaranteedRequestor.session (st res) = Some (next_handle w)
        /\ emitted (GuaranteedRequestor.connect sdk host username password vpn
                      (st res) (world res))
           = [ConsoleLog "Already connected and ready to send requests."]
        /\ emitted (GuaranteedRequestor.request (st res) (world res))
           = request_effects (next_handle w) (S (next_handle w))).
Proof.
  split.
  - intros p Hs res. subst res.
    rewrite (producer_connect_fresh _ _ _ _ _ _ _ Hs), producer_connectToSolace_spec.
    cbn [outcome st world emitted]. unfold connect_failure. rewrite Hthrows.
    split; [reflexivity |]. split; [reflexivity |]. split; [reflexivity |]. split.
    + rewrite (producer_connect_noop _ _ _ _ _ _ _ (next_handle w)) by reflexivity.
      reflexivity.
    + rewrite (sendMessage_connected _ _ _ (next_handle w)) by reflexivity. reflexivity.
  - intros r Hs res. subst res.
    rewrite (requestor_connect_fresh _ _ _ _ _ _ _ Hs), requestor_connectToSolace_spec.
    cbn [outcome st world emitted]. unfold connect_failure. rewrite Hthrows.
    split; [reflexivity |]. split; [reflexivity |]. split; [reflexivity |]. split.
    + rewrite (requestor_connect_noop _ _ _ _ _ _ _ (next_handle w)) by reflexivity.
      reflexivity.
    + rewrite (request_connected _ _ (next_handle w)) by reflexivity. reflexivity.
Qed.

Lemma connect_failure_keeps_session_witness :
  failing (sdk_calls boot) = Some "OperationError"
  /\ QueueProducer.session (QueueProducer.new "tutorial/queue") = None
  /\ QueueProducer.session
       (st (QueueProducer.connect failing (JsString "localhost:8008") (JsString "user")
              (JsString "pw") (JsString "default")
              (QueueProducer.new "tutorial/queue") boot)) = Some 0.
Proof.
  split; [reflexivity |]. split; [reflexivity |].
  destruct (connect_failure_keeps_session failing "OperationError"
              (JsString "localhost:8008") (JsString "user") (JsString "pw")
              (JsString "default") boot eq_refl) as [H _].
  destruct (H (QueueProducer.new "tutorial/queue") eq_refl) as (_ & _ & Hs & _).
  exact Hs.
Defined.

(** ** What the listeners call *)

Lemma Listener_call_teardown (sdk : Sdk) s w : Forall Listener_call (teardown sdk s w).
Proof.
  unfold teardown. destruct s; [destruct (sdk (sdk_calls w)) |]; repeat constructor.
Qed.

Lemma Listener_call_elapse (ms : nat) (w : World) : Forall Listener_call (elapse ms w).2.
Proof.
  eapply Forall_impl; [apply elapse_effects |]. intros e ->. constructor.
Qed.

Lemma producer_dispatch_calls (sdk : Sdk) e p w :
  Forall Listener_call (emitted (QueueProducer.dispatch sdk e p w)).
Proof.
  destruct e as [s code | f | f m | ms]; unfold QueueProducer.dispatch.
  - case_bool_decide; [| constructor].
    destruct code.
    + rewrite producer_on_UP_NOTICE_spec. cbn [emitted].
      constructor; [constructor |]. apply Forall_app. split.
      * unfold send_effects. destruct (QueueProducer.session p); repeat constructor.
      * apply Forall_app. split; [apply Listener_call_teardown | repeat constructor].
    + constructor.
    + rewrite producer_on_DISCONNECTED_spec. cbn [emitted]. unfold dispose_effects.
      destruct (QueueProducer.session p); repeat constructor.
  - constructor.
  - constructor.
  - pose proof (Listener_call_elapse ms w) as H. destruct (elapse ms w). exact H.
Qed.

(** A listener of the requestor makes such calls only, unless it is the one
    of UP_NOTICE opening the reply listener. *)
Lemma requestor_dispatch_calls (sdk : Sdk) e r w :
  (exists h, GuaranteedRequestor.session r = Some h
             /\ emitted (GuaranteedRequestor.dispatch sdk e r w)
                = ConsoleLog "=== Successfully connected and ready to send requests. ==="
                    :: request_effects h (next_handle w))
  \/ Forall Listener_call (emitted (GuaranteedRequestor.dispatch sdk e r w)).
Proof.
  destruct e as [s code | f | f m | ms]; unfold GuaranteedRequestor.dispatch.
  - case_bool_decide; [| right; constructor].
    destruct code.
    + unfold GuaranteedRequestor.on_UP_NOTICE, bind, log, emit.
      destruct (GuaranteedRequestor.session r) as [h|] eqn:Hs.
      * rewrite (request_connected r w h Hs). left. exists h. split; reflexivity.
      * rewrite (request_no_session r w Hs). right. repeat constructor.
    + right. repeat constructor.
    + right. rewrite requestor_on_DISCONNECTED_spec. cbn [emitted]. unfold dispose_effects.
      destruct (GuaranteedRequestor.session r); repeat constructor.
  - right. destruct (GuaranteedRequestor.flows r !! f) as [q|]; [| constructor].
    destruct (GuaranteedRequestor.session r) as [h|] eqn:Hs.
    + rewrite (on_flow_UP_connected sdk q r w h Hs). repeat constructor.
    + rewrite (on_flow_UP_no_session sdk q r w Hs). repeat constructor.
  - right. destruct (GuaranteedRequestor.flows r !! f) as [q|]; [| constructor].
    rewrite on_flow_MESSAGE_spec. cbn [emitted].
    constructor; [constructor |]. apply Forall_app.
    split; [apply Listener_call_teardown | repeat constructor].
  - right. pose proof (Listener_call_elapse ms w) as H. destruct (elapse ms w). exact H.
Qed.

(** The scripts, start to end. *)
Lemma producer_main_spec (sdk : Sdk) argv :
  QueueProducer.main sdk argv
  = if bool_decide (2 + 4 <= length argv) then
      mkRes (Returned tt)
        (QueueProducer.add_listening 0
           (QueueProducer.set_session (Some 0) (QueueProducer.new "tutorial/queue")))
        (called (allocated 1 boot))
        (ConsoleLog (QueueProducer.banner "tutorial/queue")
         :: connect_lines (at0 (slice 2 argv)) (at0 (slice 3 argv)) (at0 (slice 5 argv))
         ++ [CreateSession (properties_of argv) 0;
             SessionOn 0 UP_NOTICE; SessionOn 0 DISCONNECTED; SessionConnect 0]
         ++ connect_failure sdk boot)
    else
      mkRes (Returned tt) (QueueProducer.new "tutorial/queue") boot
        [ConsoleLog (QueueProducer.banner "tutorial/queue"); ConsoleLog usage].
Proof.
  unfold QueueProducer.main, QueueProducer.run.
  case_bool_decide; [| reflexivity].
  unfold bind at 1. cbn [log emit].
  rewrite producer_connect_fresh by reflexivity.
  rewrite producer_connectToSolace_spec. reflexivity.
Qed.

Lemma requestor_main_spec (sdk : Sdk) argv :
  GuaranteedRequestor.main sdk argv
  = if bool_decide (2 + 4 <= length argv) then
      mkRes (Returned tt)
        (GuaranteedRequestor.add_listening 0
           (GuaranteedRequestor.set_session (Some 0)
              (GuaranteedRequestor.new "tutorial/requestqueue")))
        (called (allocated 1 boot))
        (ConsoleLog GuaranteedRequestor.banner
         :: connect_lines (at0 (slice 2 argv)) (at0 (slice 3 argv)) (at0 (slice 5 argv))
         ++ [CreateSession (properties_of argv) 0;
             SessionOn 0 UP_NOTICE; SessionOn 0 CONNECTING; SessionOn 0 DISCONNECTED;
             SessionConnect 0]
         ++ connect_failure sdk boot)
    else
      mkRes (Returned tt) (GuaranteedRequestor.new "tutorial/requestqueue") boot
        [ConsoleLog GuaranteedRequestor.banner; ConsoleLog usage].
Proof.
  unfold GuaranteedRequestor.main, GuaranteedRequestor.run.
  case_bool_decide; [| reflexivity].
  unfold bind at 1. cbn [log emit].
  rewrite requestor_connect_fresh by reflexivity.
  rewrite requestor_connectToSolace_spec. reflexivity.
Qed.

Lemma producer_execution_effects (sdk : Sdk) argv evs :
  effects (QueueProducer.execution sdk argv evs).1.1
  = emitted (QueueProducer.main sdk argv)
    ++ effects (deliver (QueueProducer.dispatch sdk) evs
                  (st (QueueProducer.main sdk argv))
                  (world (QueueProducer.main sdk argv))).1.1.
Proof.
  unfold QueueProducer.execution. cbv zeta.
  destruct (deliver _ evs _ _) as [[steps p'] w']. reflexivity.
Qed.

Lemma requestor_execution_effects (sdk : Sdk) argv evs :
  effects (GuaranteedRequestor.execution sdk argv evs).1.1
  = emitted (GuaranteedRequestor.main sdk argv)
    ++ effects (deliver (GuaranteedRequestor.dispatch sdk) evs
                  (st (GuaranteedRequestor.main sdk argv))
                  (world (GuaranteedRequestor.main sdk argv))).1.1.
Proof.
  unfold GuaranteedRequestor.execution. cbv zeta.
  destruct (deliver _ evs _ _) as [[steps p'] w']. reflexivity.
Qed.

Lemma created_app (a b : list Effect) : created (a ++ b) = created a ++ created b.
Proof. unfold created. apply omap_app. Qed.

Lemma created_none (l : list Effect) :
  Forall (fun e => created [e] = []) l -> created l = [].
Proof.
  induction 1 as [| e l He _ IH]; [reflexivity |].
  change (e :: l) with ([e] ++ l). rewrite created_app, He, IH. reflexivity.
Qed.

Lemma producer_dispatch_creates (sdk : Sdk) e p w :
  Forall (fun e => created [e] = []) (emitted (QueueProducer.dispatch sdk e p w)).
Proof.
  eapply Forall_impl; [apply producer_dispatch_calls |]. intros x []; reflexivity.
Qed.

Lemma requestor_dispatch_creates (sdk : Sdk) e r w :
  Forall (fun e => created [e] = []) (emitted (GuaranteedRequestor.dispatch sdk e r w)).
Proof.
  destruct (requestor_dispatch_calls sdk e r w) as [(h & _ & ->) | H].
  - repeat constructor.
  - eapply Forall_impl; [exact H |]. intros x []; reflexivity.
Qed.

Lemma created_connect_failure (sdk : Sdk) w : created (connect_failure sdk w) = [].
Proof. unfold connect_failure. destruct (sdk (sdk_calls w)); reflexivity. Qed.

Lemma producer_main_created (sdk : Sdk) argv :
  let c := created (emitted (QueueProducer.main sdk argv)) in
  length c <= 1
  /\ Forall (fun x => x.1 = properties_of argv) c
  /\ (length argv < 2 + 4 -> c = []).
Proof.
  rewrite producer_main_spec. case_bool_decide as Hlen; cbn [emitted].
  - change (ConsoleLog ?x :: ?l) with ([ConsoleLog x] ++ l).
    rewrite !created_app, created_connect_failure.
    split; [cbn; lia |]. split; [repeat constructor | lia].
  - split; [cbn; lia |]. split; [constructor | reflexivity].
Qed.

Lemma requestor_main_created (sdk : Sdk) argv :
  let c := created (emitted (GuaranteedRequestor.main sdk argv)) in
  length c <= 1
  /\ Forall (fun x => x.1 = properties_of argv) c
  /\ (length argv < 2 + 4 -> c = []).
Proof.
  rewrite requestor_main_spec. case_bool_decide as Hlen; cbn [emitted].
  - change (ConsoleLog ?x :: ?l) with ([ConsoleLog x] ++ l).
    rewrite !created_app, created_connect_failure.
    split; [cbn; lia |]. split; [repeat constructor | lia].
  - split; [cbn; lia |]. split; [constructor | reflexivity].
Qed.

(** X12: in every execution of either sample no listener creates a session:
    the sessions created are those created by the script before the first
    event.  There is at most one, its properties are taken from the
    arguments, and with fewer than four arguments there is none. *)
Theorem session_created_at_startup (sdk : Sdk) (argv : list string) (evs : list Event) :
  (let c := created (effects (QueueProducer.execution sdk argv evs).1.1) in
   c = created (emitted (QueueProducer.main sdk argv))
   /\ length c <= 1
   /\ Forall (fun x => x.1 = properties_of argv) c
   /\ (length argv < 2 + 4 -> c = []))
  /\ (let c := created (effects (GuaranteedRequestor.execution sdk argv evs).1.1) in
      c = created (emitted (GuaranteedRequestor.main sdk argv))
      /\ length c <= 1
      /\ Forall (fun x => x.1 = properties_of argv) c
      /\ (length argv < 2 + 4 -> c = [])).
Proof.
  split.
  - assert (Heq : created (effects (QueueProducer.execution sdk argv evs).1.1)
                  = created (emitted (QueueProducer.main sdk argv))).
    { rewrite producer_execution_effects, created_app.
      rewrite (created_none (effects _)), app_nil_r
        by (apply deliver_effects_Forall, producer_dispatch_creates).
      reflexivity. }
    cbv zeta. rewrite Heq. split; [reflexivity | apply producer_main_created].
  - assert (Heq : created (effects (GuaranteedRequestor.execution sdk argv evs).1.1)
                  = created (emitted (GuaranteedRequestor.main sdk argv))).
    { rewrite requestor_execution_effects, created_app.
      rewrite (created_none (effects _)), app_nil_r
        by (apply deliver_effects_Forall, requestor_dispatch_creates).
      reflexivity. }
    cbv zeta. rewrite Heq. split; [reflexivity | apply requestor_main_created].
Qed.

Lemma session_created_at_startup_witness :
  length ["node"; "sample.js"; "localhost:8008"] < 2 + 4
  /\ created (effects (GuaranteedRequestor.execution ok
                         ["node"; "sample.js"; "localhost:8008"]
                         [SessionEvent 0 UP_NOTICE; FlowUp 2]).1.1) = [].
Proof.
  split; [cbn; lia |].
  destruct (session_created_at_startup ok ["node"; "sample.js"; "localhost:8008"]
              [SessionEvent 0 UP_NOTICE; FlowUp 2]) as [_ (_ & _ & _ & H)].
  apply H. cbn; lia.
Defined.

(** ** Listeners are registered before anything is connected *)

Lemma Preceded_app (a b : Effect) (l1 l2 : list Effect) :
  Preceded a b l1 -> Preceded a b l2 -> Preceded a b (l1 ++ l2).
Proof.
  intros H1 H2 i Hi. apply lookup_app_Some in Hi as [Hi | [Hle Hi]].
  - destruct (H1 i Hi) as (j & Hj & Ha). exists j. split; [exact Hj |].
    apply lookup_app_l_Some, Ha.
  - destruct (H2 _ Hi) as (j & Hj & Ha). exists (length l1 + j). split; [lia |].
    rewrite lookup_app_r by lia. replace (length l1 + j - length l1) with j by lia.
    exact Ha.
Qed.

Lemma Preceded_absent (a b : Effect) (l : list Effect) :
  Forall (fun e => e <> b) l -> Preceded a b l.
Proof.
  intros Hall i Hi. rewrite Forall_lookup in Hall. destruct (Hall i b Hi eq_refl).
Qed.

Lemma deliver_Preceded {St} (dispatch : Event -> St -> World -> Res St unit)
    (a b : Effect)
    (Hd : forall e s w, Preceded a b (emitted (dispatch e s w))) :
  forall evs s w, Preceded a b (effects (deliver dispatch evs s w).1.1).
Proof.
  induction evs as [| e evs IH]; intros s w; cbn [deliver].
  - intros i Hi. destruct i; discriminate.
  - destruct (exited w); [intros i Hi; destruct i; discriminate |].
    specialize (IH (st (dispatch e s w)) (world (dispatch e s w))).
    destruct (deliver dispatch evs _ _) as [[steps s'] w'].
    cbn [fst] in *. unfold effects in *. cbn [map concat step_effects].
    apply Preceded_app; [apply Hd | exact IH].
Qed.

Lemma Listener_call_absent (b : Effect) (l : list Effect) :
  ~ Listener_call b -> Forall Listener_call l -> Forall (fun e => e <> b) l.
Proof.
  intros Hb Hall. eapply Forall_impl; [exact Hall |]. intros e He ->. exact (Hb He).
Qed.

Lemma producer_main_registers (sdk : Sdk) argv s :
  Preceded (SessionOn s UP_NOTICE) (SessionConnect s) (emitted (QueueProducer.main sdk argv))
  /\ Preceded (SessionOn s DISCONNECTED) (SessionConnect s)
       (emitted (QueueProducer.main sdk argv)).
Proof.
  rewrite producer_main_spec. unfold connect_lines, connect_failure.
  case_bool_decide; cbn [emitted];
    [destruct (sdk (sdk_calls boot)) |];
    (split; intros i Hi;
     scan_index i Hi 10; try (cbn in Hi; discriminate)).
  all: injection Hi as <-.
  all: first [ exists 5; split; [lia | reflexivity] | exists 6; split; [lia | reflexivity] ].
Qed.

Lemma requestor_main_registers (sdk : Sdk) argv s :
  Preceded (SessionOn s UP_NOTICE) (SessionConnect s)
    (emitted (GuaranteedRequestor.main sdk argv))
  /\ Preceded (SessionOn s CONNECTING) (SessionConnect s)
       (emitted (GuaranteedRequestor.main sdk argv))
  /\ Preceded (SessionOn s DISCONNECTED) (SessionConnect s)
       (emitted (GuaranteedRequestor.main sdk argv)).
Proof.
  rewrite requestor_main_spec. unfold connect_lines, connect_failure.
  case_bool_decide; cbn [emitted];
    [destruct (sdk (sdk_calls boot)) |];
    (split; [| split]; intros i Hi;
     scan_index i Hi 11; try (cbn in Hi; discriminate)).
  all: injection Hi as <-.
  all: first [ exists 5; split; [lia | reflexivity]
             | exists 6; split; [lia | reflexivity]
             | exists 7; split; [lia | reflexivity] ].
Qed.

Lemma producer_dispatch_registers (sdk : Sdk) (a b : Effect) e p w :
  ~ Listener_call b -> Preceded a b (emitted (QueueProducer.dispatch sdk e p w)).
Proof.
  intros Hb. apply Preceded_absent, (Listener_call_absent b); [exact Hb |].
  apply producer_dispatch_calls.
Qed.

Lemma requestor_dispatch_session_registers (sdk : Sdk) (a : Effect) s e r w :
  Preceded a (SessionConnect s) (emitted (GuaranteedRequestor.dispatch sdk e r w)).
Proof.
  apply Preceded_absent.
  destruct (requestor_dispatch_calls sdk e r w) as [(h & _ & ->) | H].
  - repeat constructor; discriminate.
  - apply (Listener_call_absent (SessionConnect s)); [| exact H]. inversion 1.
Qed.

Lemma requestor_dispatch_flow_registers (sdk : Sdk) f e r w :
  Preceded (FlowOn f UP) (FlowConnect f) (emitted (GuaranteedRequestor.dispatch sdk e r w))
  /\ Preceded (FlowOn f MESSAGE) (FlowConnect f)
       (emitted (GuaranteedRequestor.dispatch sdk e r w)).
Proof.
  destruct (requestor_dispatch_calls sdk e r w) as [(h & _ & ->) | H].
  - split; intros i Hi;
      scan_index i Hi 6; try (cbn in Hi; discriminate).
    + injection Hi as <-. exists 3. split; [lia | reflexivity].
    + injection Hi as <-. exists 4. split; [lia | reflexivity].
  - split; apply Preceded_absent, (Listener_call_absent (FlowConnect f));
      try exact H; inversion 1.
Qed.

(** X6: in every execution of either sample, [session.connect()] is called
    on a session only after the listeners of UP_NOTICE and DISCONNECTED (and
    of CONNECTING, in the requestor) were put on it, and the requestor calls
    [flow.connect()] on a flow only after the listeners of UP and MESSAGE
    were put on it: no event of a connection can come before its listener
    is there. *)
Theorem listeners_before_connect (sdk : Sdk) (argv : list string) (evs : list Event)
    (s f : nat) :
  let producer := effects (QueueProducer.execution sdk argv evs).1.1 in
  let requestor := effects (GuaranteedRequestor.execution sdk argv evs).1.1 in
  Preceded (SessionOn s UP_NOTICE) (SessionConnect s) producer
  /\ Preceded (SessionOn s DISCONNECTED) (SessionConnect s) producer
  /\ Preceded (SessionOn s UP_NOTICE) (SessionConnect s) requestor
  /\ Preceded (SessionOn s CONNECTING) (SessionConnect s) requestor
  /\ Preceded (SessionOn s DISCONNECTED) (SessionConnect s) requestor
  /\ Preceded (FlowOn f UP) (FlowConnect f) requestor
  /\ Preceded (FlowOn f MESSAGE) (FlowConnect f) requestor.
Proof.
  intros producer requestor. subst producer requestor.
  rewrite producer_execution_effects, requestor_execution_effects.
  destruct (producer_main_registers sdk argv s) as [HP1 HP2].
  destruct (requestor_main_registers sdk argv s) as (HR1 & HR2 & HR3).
  assert (Hmain : forall a, Preceded a (FlowConnect f)
                              (emitted (GuaranteedRequestor.main sdk argv))).
  { intros a. apply Preceded_absent. rewrite requestor_main_spec.
    unfold connect_lines, connect_failure.
    case_bool_decide; cbn [emitted]; [destruct (sdk (sdk_calls boot)) |];
      repeat constructor; discriminate. }
  repeat split; apply Preceded_app; try assumption; try apply Hmain.
  - apply deliver_Preceded. intros. apply producer_dispatch_registers. inversion 1.
  - apply deliver_Preceded. intros. apply producer_dispatch_registers. inversion 1.
  - apply deliver_Preceded. intros. apply requestor_dispatch_session_registers.
  - apply deliver_Preceded. intros. apply requestor_dispatch_session_registers.
  - apply deliver_Preceded. intros. apply requestor_dispatch_session_registers.
  - apply deliver_Preceded. intros. apply requestor_dispatch_flow_registers.
  - apply deliver_Preceded. intros. apply requestor_dispatch_flow_registers.
Qed.

Lemma listeners_before_connect_witness :
  effects (GuaranteedRequestor.execution ok argv4 [SessionEvent 0 UP_NOTICE]).1.1 !! 14
  = Some (FlowConnect 2)
  /\ exists j, j < 14
       /\ effects (GuaranteedRequestor.execution ok argv4 [SessionEvent 0 UP_NOTICE]).1.1 !! j
          = Some (FlowOn 2 MESSAGE).
Proof.
  split; [vm_compute; reflexivity |].
  destruct (listeners_before_connect ok argv4 [SessionEvent 0 UP_NOTICE] 0 2)
    as (_ & _ & _ & _ & _ & _ & H).
  apply (H 14). vm_compute; reflexivity.
Defined.

(** ** Disconnection *)

(** Along a delivery, once the session was disposed of and the field is
    [null], no call is made on a session: shown for any object with a
    session field [get], from two facts about its listeners. *)
Lemma deliver_unused_after_dispose {St} (get : St -> option nat)
    (dispatch : Event -> St -> World -> Res St unit)
    (Hnull : forall e s w, get s = None ->
               get (st (dispatch e s w)) = None
               /\ Forall (fun x => uses_session x = false) (emitted (dispatch e s w)))
    (Hdispose : forall e s w,
               Undisposed (emitted (dispatch e s w))
               \/ (get (st (dispatch e s w)) = None
                   /\ exists h, emitted (dispatch e s w)
                                = [ConsoleLog "Disconnected."; SessionDispose h])) :
  forall evs s w acc,
    Unused_after_dispose acc -> Undisposed acc \/ get s = None ->
    Unused_after_dispose (acc ++ effects (deliver dispatch evs s w).1.1).
Proof.
  induction evs as [| e evs IH]; intros s w acc Hacc Hst; cbn [deliver].
  - cbn. rewrite app_nil_r. exact Hacc.
  - destruct (exited w); [cbn; rewrite app_nil_r; exact Hacc |].
    set (res := dispatch e s w).
    assert (Hstep : Unused_after_dispose (acc ++ emitted res)
                    /\ (Undisposed (acc ++ emitted res) \/ get (st res) = None)).
    { destruct Hst as [Hund | Hnone].
      - destruct (Hdispose e s w) as [Hund' | (Hnone' & h & Heff)]; fold res in Hund' || idtac.
        + assert (Hall : Undisposed (acc ++ emitted res)) by (apply Forall_app; auto).
          split; [| left; exact Hall].
          intros i j h x Hi _ _. unfold Undisposed in Hall. rewrite Forall_lookup in Hall.
          destruct (Hall i _ Hi h eq_refl).
        + fold res in Hnone', Heff. split; [| right; exact Hnone'].
          rewrite Heff. intros i j h' x Hi Hij Hj.
          apply lookup_app_Some in Hi as [Hi | [Hle Hi]].
          * unfold Undisposed in Hund. rewrite Forall_lookup in Hund.
            destruct (Hund i _ Hi h' eq_refl).
          * apply lookup_lt_Some in Hj. rewrite length_app in Hj. cbn in Hj.
            destruct (i - length acc) as [| [| n]] eqn:Hd; cbn in Hi; try discriminate.
            lia.
      - destruct (Hnull e s w Hnone) as [Hnone' Hquiet]. fold res in Hnone', Hquiet.
        split; [| right; exact Hnone'].
        rewrite Forall_lookup in Hquiet.
        intros i j h x Hi Hij Hj.
        apply lookup_app_Some in Hi as [Hi | [Hle Hi]].
        + apply lookup_app_Some in Hj as [Hj | [Hle' Hj]].
          * exact (Hacc i j h x Hi Hij Hj).
          * exact (Hquiet _ _ Hj).
        + specialize (Hquiet _ _ Hi). discriminate. }
    destruct Hstep as [Hacc' Hst'].
    specialize (IH (st res) (world res) (acc ++ emitted res) Hacc' Hst').
    destruct (deliver dispatch evs (st res) (world res)) as [[steps s'] w'].
    cbn [fst] in *. unfold effects in *. cbn [map concat step_effects].
    rewrite app_assoc. exact IH.
Qed.

Lemma unused_teardown_none (sdk : Sdk) w :
  Forall (fun x => uses_session x = false) (teardown sdk None w).
Proof. repeat constructor. Qed.

Lemma unused_elapse (ms : nat) (w : World) :
  Forall (fun x => uses_session x = false) (elapse ms w).2.
Proof. eapply Forall_impl; [apply elapse_effects |]. intros e ->. reflexivity. Qed.

Lemma undisposed_teardown (sdk : Sdk) s w : Undisposed (teardown sdk s w).
Proof.
  unfold teardown. destruct s; [destruct (sdk (sdk_calls w)) |];
    repeat constructor; discriminate.
Qed.

Lemma undisposed_elapse (ms : nat) (w : World) : Undisposed (elapse ms w).2.
Proof. eapply Forall_impl; [apply elapse_effects |]. intros e -> h. discriminate. Qed.

Lemma producer_dispatch_null (sdk : Sdk) e p w :
  QueueProducer.session p = None ->
  QueueProducer.session (st (QueueProducer.dispatch sdk e p w)) = None
  /\ Forall (fun x => uses_session x = false) (emitted (QueueProducer.dispatch sdk e p w)).
Proof.
  intros Hs. destruct e as [s code | f | f m | ms]; unfold QueueProducer.dispatch.
  - case_bool_decide; [| split; [exact Hs | constructor]].
    destruct code.
    + rewrite producer_on_UP_NOTICE_spec. cbn [st emitted]. split; [exact Hs |].
      unfold send_effects. rewrite Hs. repeat constructor.
    + split; [exact Hs | constructor].
    + rewrite producer_on_DISCONNECTED_spec. cbn [st emitted]. rewrite Hs.
      split; [first [exact Hs | reflexivity] | repeat constructor].
  - split; [exact Hs | constructor].
  - split; [exact Hs | constructor].
  - pose proof (unused_elapse ms w) as H. destruct (elapse ms w). split; [exact Hs | exact H].
Qed.

Lemma producer_dispatch_dispose (sdk : Sdk) e p w :
  Undisposed (emitted (QueueProducer.dispatch sdk e p w))
  \/ (QueueProducer.session (st (QueueProducer.dispatch sdk e p w)) = None
      /\ exists h, emitted (QueueProducer.dispatch sdk e p w)
                   = [ConsoleLog "Disconnected."; SessionDispose h]).
Proof.
  destruct e as [s code | f | f m | ms]; unfold QueueProducer.dispatch.
  - case_bool_decide; [| left; constructor].
    destruct code.
    + left. rewrite producer_on_UP_NOTICE_spec. cbn [emitted].
      constructor; [discriminate |]. apply Forall_app. split.
      * unfold send_effects. destruct (QueueProducer.session p);
          repeat constructor; discriminate.
      * apply Forall_app. split; [apply undisposed_teardown |].
        repeat constructor; discriminate.
    + left. constructor.
    + rewrite producer_on_DISCONNECTED_spec. cbn [st emitted]. unfold dispose_effects.
      destruct (QueueProducer.session p) as [h|].
      * right. split; [reflexivity | eauto].
      * left. repeat constructor; discriminate.
  - left. constructor.
  - left. constructor.
  - left. pose proof (undisposed_elapse ms w) as H. destruct (elapse ms w). exact H.
Qed.

Lemma requestor_dispatch_null (sdk : Sdk) e r w :
  GuaranteedRequestor.session r = None ->
  GuaranteedRequestor.session (st (GuaranteedRequestor.dispatch sdk e r w)) = None
  /\ Forall (fun x => uses_session x = false)
       (emitted (GuaranteedRequestor.dispatch sdk e r w)).
Proof.
  intros Hs. destruct e as [s code | f | f m | ms]; unfold GuaranteedRequestor.dispatch.
  - case_bool_decide; [| split; [exact Hs | constructor]].
    destruct code.
    + unfold GuaranteedRequestor.on_UP_NOTICE, bind, log, emit.
      rewrite (request_no_session r w Hs). split; [first [exact Hs | reflexivity] | repeat constructor].
    + split; [first [exact Hs | reflexivity] | repeat constructor].
    + rewrite requestor_on_DISCONNECTED_spec. cbn [st emitted]. rewrite Hs.
      split; [first [exact Hs | reflexivity] | repeat constructor].
  - destruct (GuaranteedRequestor.flows r !! f) as [q|]; [| split; [exact Hs | constructor]].
    rewrite (on_flow_UP_no_session sdk q r w Hs). split; [first [exact Hs | reflexivity] | repeat constructor].
  - destruct (GuaranteedRequestor.flows r !! f) as [q|]; [| split; [exact Hs | constructor]].
    rewrite on_flow_MESSAGE_spec. cbn [st emitted]. rewrite Hs.
    split; [first [exact Hs | reflexivity] | repeat constructor].
  - pose proof (unused_elapse ms w) as H. destruct (elapse ms w). split; [exact Hs | exact H].
Qed.

Lemma requestor_dispatch_dispose (sdk : Sdk) e r w :
  Undisposed (emitted (GuaranteedRequestor.dispatch sdk e r w))
  \/ (GuaranteedRequestor.session (st (GuaranteedRequestor.dispatch sdk e r w)) = None
      /\ exists h, emitted (GuaranteedRequestor.dispatch sdk e r w)
                   = [ConsoleLog "Disconnected."; SessionDispose h]).
Proof.
  destruct e as [s code | f | f m | ms]; unfold GuaranteedRequestor.dispatch.
  - case_bool_decide; [| left; constructor].
    destruct code.
    + left. unfold GuaranteedRequestor.on_UP_NOTICE, bind, log, emit.
      destruct (GuaranteedRequestor.session r) as [h|] eqn:Hs.
      * rewrite (request_connected r w h Hs). repeat constructor; discriminate.
      * rewrite (request_no_session r w Hs). repeat constructor; discriminate.
    + left. repeat constructor; discriminate.
    + rewrite requestor_on_DISCONNECTED_spec. cbn [st emitted]. unfold dispose_effects.
      destruct (GuaranteedRequestor.session r) as [h|].
      * right. split; [reflexivity | eauto].
      * left. repeat constructor; discriminate.
  - left. destruct (GuaranteedRequestor.flows r !! f) as [q|]; [| constructor].
    destruct (GuaranteedRequestor.session r) as [h|] eqn:Hs.
    + rewrite (on_flow_UP_connected sdk q r w h Hs). repeat constructor; discriminate.
    + rewrite (on_flow_UP_no_session sdk q r w Hs). repeat constructor; discriminate.
  - left. destruct (GuaranteedRequestor.flows r !! f) as [q|]; [| constructor].
    rewrite on_flow_MESSAGE_spec. cbn [emitted].
    constructor; [discriminate |]. apply Forall_app.
    split; [apply undisposed_teardown | repeat constructor; discriminate].
  - left. pose proof (undisposed_elapse ms w) as H. destruct (elapse ms w). exact H.
Qed.

Lemma Undisposed_unused (l : list Effect) : Undisposed l -> Unused_after_dispose l.
Proof.
  intros Hall i j h x Hi _ _. unfold Undisposed in Hall. rewrite Forall_lookup in Hall.
  destruct (Hall i _ Hi h eq_refl).
Qed.

Lemma producer_main_undisposed (sdk : Sdk) argv :
  Undisposed (emitted (QueueProducer.main sdk argv)).
Proof.
  rewrite producer_main_spec. unfold connect_lines, connect_failure.
  case_bool_decide; cbn [emitted]; [destruct (sdk (sdk_calls boot)) |];
    repeat constructor; discriminate.
Qed.

Lemma requestor_main_undisposed (sdk : Sdk) argv :
  Undisposed (emitted (GuaranteedRequestor.main sdk argv)).
Proof.
  rewrite requestor_main_spec. unfold connect_lines, connect_failure.
  case_bool_decide; cbn [emitted]; [destruct (sdk (sdk_calls boot)) |];
    repeat constructor; discriminate.
Qed.

(** X8: in every execution of either sample, once [session.dispose()] has
    been called no call is made on a session any more: nothing is sent, no
    queue or flow is created, nothing is disconnected or disposed of
    again. *)
Theorem no_call_after_dispose (sdk : Sdk) (argv : list string) (evs : list Event) :
  Unused_after_dispose (effects (QueueProducer.execution sdk argv evs).1.1)
  /\ Unused_after_dispose (effects (GuaranteedRequestor.execution sdk argv evs).1.1).
Proof.
  split.
  - rewrite producer_execution_effects.
    apply (deliver_unused_after_dispose QueueProducer.session).
    + apply producer_dispatch_null.
    + apply producer_dispatch_dispose.
    + apply Undisposed_unused, producer_main_undisposed.
    + left. apply producer_main_undisposed.
  - rewrite requestor_execution_effects.
    apply (deliver_unused_after_dispose GuaranteedRequestor.session).
    + apply requestor_dispatch_null.
    + apply requestor_dispatch_dispose.
    + apply Undisposed_unused, requestor_main_undisposed.
    + left. apply requestor_main_undisposed.
Qed.

(** A run in which the session goes down before the flow comes up: the UP
    listener then finds no session and nothing is sent. *)
Lemma no_call_after_dispose_witness :
  effects (GuaranteedRequestor.execution ok argv4
             [SessionEvent 0 UP_NOTICE; SessionEvent 0 DISCONNECTED; FlowUp 2]).1.1 !! 16
  = Some (SessionDispose 0)
  /\ effects (GuaranteedRequestor.execution ok argv4
                [SessionEvent 0 UP_NOTICE; SessionEvent 0 DISCONNECTED; FlowUp 2]).1.1 !! 17
     = Some (ConsoleLog (requesting_line "tutorial/requestqueue"))
  /\ uses_session (ConsoleLog (requesting_line "tutorial/requestqueue")) = false.
Proof.
  split; [vm_compute; reflexivity |]. split; [vm_compute; reflexivity |].
  destruct (no_call_after_dispose ok argv4
              [SessionEvent 0 UP_NOTICE; SessionEvent 0 DISCONNECTED; FlowUp 2]) as [_ H].
  apply (H 16 17 0); [vm_compute; reflexivity | lia | vm_compute; reflexivity].
Defined.

(** X7: the listener of DISCONNECTED leaves the field [session] at [null],
    having disposed of the session if there was one; run again it only logs.
    After it the sending functions refuse to send: [sendMessage] and
    [request] log that the sample is not connected and call nothing else. *)
Theorem disconnected_once (sdk : Sdk) :
  (forall p w w',
     let after := st (QueueProducer.on_DISCONNECTED p w) in
     QueueProducer.session after = None
     /\ emitted (QueueProducer.on_DISCONNECTED p w)
        = ConsoleLog "Disconnected."
            :: match QueueProducer.session p with
               | Some h => [SessionDispose h]
               | None => []
               end
     /\ QueueProducer.on_DISCONNECTED after w'
        = mkRes (Returned tt) after w' [ConsoleLog "Disconnected."]
     /\ QueueProducer.sendMessage sdk after w'
        = mkRes (Returned tt) after w'
            [ConsoleLog "Cannot send messages because not connected to Solace message router."])
  /\ (forall r w w',
        let after := st (GuaranteedRequestor.on_DISCONNECTED r w) in
        GuaranteedRequestor.session after = None
        /\ emitted (GuaranteedRequestor.on_DISCONNECTED r w)
           = ConsoleLog "Disconnected."
               :: match GuaranteedRequestor.session r with
                  | Some h => [SessionDispose h]
                  | None => []
                  end
        /\ GuaranteedRequestor.on_DISCONNECTED after w'
           = mkRes (Returned tt) after w' [ConsoleLog "Disconnected."]
        /\ GuaranteedRequestor.request after w'
           = mkRes (Returned tt) after w'
               [ConsoleLog "Cannot send request because not connected to Solace message router."]).
Proof.
  split.
  - intros p w w' after.
    assert (Hs : QueueProducer.session after = None).
    { subst after. rewrite producer_on_DISCONNECTED_spec. cbn [st].
      destruct (QueueProducer.session p) eqn:E; [reflexivity | exact E]. }
    split; [exact Hs |].
    split; [rewrite producer_on_DISCONNECTED_spec; reflexivity |]. split.
    + rewrite producer_on_DISCONNECTED_spec, Hs. reflexivity.
    + rewrite sendMessage_spec. unfold send_effects, called_if. rewrite Hs. reflexivity.
  - intros r w w' after.
    assert (Hs : GuaranteedRequestor.session after = None).
    { subst after. rewrite requestor_on_DISCONNECTED_spec. cbn [st].
      destruct (GuaranteedRequestor.session r) eqn:E; [reflexivity | exact E]. }
    split; [exact Hs |].
    split; [rewrite requestor_on_DISCONNECTED_spec; reflexivity |]. split.
    + rewrite requestor_on_DISCONNECTED_spec, Hs. reflexivity.
    + apply request_no_session, Hs.
Qed.

(** ** When [session.send] throws *)

(** X9: the two samples differ when [session.send] throws.  The producer
    catches the error, logs it in place of ['Message sent.'] and goes on to
    disconnect and to set the exit timer.  In the requestor nothing catches
    it: the error leaves the listener of the flow's UP, is not logged, and
    no exit timer is set; the field [correlationID] is set all the same. *)
Theorem send_failure (sdk : Sdk) (error : string) (h : nat) (w : World)
    (Hthrows : sdk (sdk_calls w) = Some error) :
  (forall p, QueueProducer.session p = Some h ->
     let res := QueueProducer.on_UP_NOTICE sdk p w in
     outcome res = Returned tt
     /\ emitted res =
        [ConsoleLog "=== Successfully connected and ready to send messages. ===";
         ConsoleLog (sending_line (QueueProducer.queueName p));
         SessionSend h (sample_message (QueueProducer.queueName p));
         ConsoleLog error]
        ++ teardown sdk (Some h) (called w) ++ [SetTimeout CallProcessExit 1000]
     /\ timers (world res) = timers w ++ [(now w + 1000, CallProcessExit)])
  /\ (forall r f q, GuaranteedRequestor.session r = Some h ->
        GuaranteedRequestor.flows r !! f = Some q ->
        let res := GuaranteedRequestor.dispatch sdk (FlowUp f) r w in
        outcome res = Threw error
        /\ emitted res =
           [ConsoleLog (requesting_line (GuaranteedRequestor.requestQueueName r));
            SessionSend h (sample_request (GuaranteedRequestor.requestQueueName r) q)]
        /\ timers (world res) = timers w
        /\ GuaranteedRequestor.correlationID (st res) = JsString "MyCorrelationID").
Proof.
  split.
  - intros p Hs res. subst res. rewrite producer_on_UP_NOTICE_spec.
    unfold send_effects. rewrite Hs, Hthrows. cbn [outcome emitted world called_if].
    split; [reflexivity |]. split; reflexivity.
  - intros r f q Hs Hf res. subst res. unfold GuaranteedRequestor.dispatch.
    rewrite Hf, (on_flow_UP_connected sdk q r w h Hs), Hthrows.
    split; [reflexivity |]. split; [reflexivity |]. split; reflexivity.
Qed.

Lemma send_failure_witness :
  failing (sdk_calls boot) = Some "OperationError"
  /\ GuaranteedRequestor.session waiting_requestor = Some 0
  /\ GuaranteedRequestor.flows waiting_requestor !! 2 = Some 1
  /\ outcome (GuaranteedRequestor.dispatch failing (FlowUp 2) waiting_requestor boot)
     = Threw "OperationError".
Proof.
  split; [reflexivity |]. split; [reflexivity |]. split; [reflexivity |].
  destruct (send_failure failing "OperationError" 0 boot eq_refl) as [_ H].
  destruct (H waiting_requestor 2 1 eq_refl eq_refl) as (Ho & _). exact Ho.
Defined.

(** ** What a reply is compared with *)

(** X10: once the listener of a flow's UP has run, whether or not there was
    a session and whether or not the send threw, a reply is logged as
    received exactly when its correlation identifier is the string
    ['MyCorrelationID'], and as a mismatch otherwise, be it [null] or
    [undefined]. *)
Theorem reply_matched_after_up (sdk sdk' : Sdk) (q : nat)
    (r : GuaranteedRequestor.Requestor) (w w' : World) (message : Inbound) :
  let after := st (GuaranteedRequestor.on_flow_UP sdk q r w) in
  GuaranteedRequestor.session after = GuaranteedRequestor.session r
  /\ emitted (GuaranteedRequestor.on_flow_MESSAGE sdk' message after w')
     = ConsoleLog (if bool_decide (getCorrelationId message = JsString "MyCorrelationID")
                   then received_line message
                   else mismatch_line message)
         :: teardown sdk' (GuaranteedRequestor.session r) w'
         ++ [SetTimeout CallProcessExit 1000].
Proof.
  intros after.
  assert (Hafter : after = GuaranteedRequestor.set_correlationID
                             (JsString "MyCorrelationID") r).
  { subst after. destruct (GuaranteedRequestor.session r) as [h|] eqn:Hs.
    - rewrite (on_flow_UP_connected sdk q r w h Hs). reflexivity.
    - rewrite (on_flow_UP_no_session sdk q r w Hs). reflexivity. }
  rewrite Hafter. split; [reflexivity |].
  rewrite on_flow_MESSAGE_spec. reflexivity.
Qed.

(** Before any UP the field is [null]: a reply without correlation
    identifier is then logged as received, one with an [undefined]
    identifier as a mismatch. *)
Example reply_before_up :
  reply_line (GuaranteedRequestor.new "tutorial/requestqueue")
    {| getCorrelationId := JsNull; getBinaryAttachment := JsString "x"; dump := "d" |}
  = received_line
      {| getCorrelationId := JsNull; getBinaryAttachment := JsString "x"; dump := "d" |}
  /\ reply_line (GuaranteedRequestor.new "tutorial/requestqueue")
       {| getCorrelationId := JsUndefined; getBinaryAttachment := JsString "x"; dump := "d" |}
     = mismatch_line
         {| getCorrelationId := JsUndefined; getBinaryAttachment := JsString "x";
            dump := "d" |}.
Proof. split; reflexivity. Qed.

(** ** What the producer sends *)

Lemma producer_dispatch_sends (sdk : Sdk) e p w :
  QueueProducer.queueName (st (QueueProducer.dispatch sdk e p w)) = QueueProducer.queueName p
  /\ (sent (emitted (QueueProducer.dispatch sdk e p w)) = []
      \/ ((exists s, e = SessionEvent s UP_NOTICE)
          /\ sent (emitted (QueueProducer.dispatch sdk e p w))
             = [sample_message (QueueProducer.queueName p)])).
Proof.
  destruct e as [s code | f | f m | ms]; unfold QueueProducer.dispatch.
  - case_bool_decide; [| split; [reflexivity | left; reflexivity]].
    destruct code.
    + rewrite producer_on_UP_NOTICE_spec. cbn [st emitted]. split; [reflexivity |].
      change (ConsoleLog ?x :: ?l) with ([ConsoleLog x] ++ l).
      rewrite !sent_app, sent_teardown. unfold send_effects.
      destruct (QueueProducer.session p); [right | left]; [| reflexivity].
      split; [eauto | reflexivity].
    + split; [reflexivity | left; reflexivity].
    + rewrite producer_on_DISCONNECTED_spec. cbn [st emitted]. unfold dispose_effects.
      destruct (QueueProducer.session p); (split; [reflexivity | left; reflexivity]).
  - split; [reflexivity | left; reflexivity].
  - split; [reflexivity | left; reflexivity].
  - pose proof (sent_elapse ms w) as H. destruct (elapse ms w).
    split; [reflexivity | left; exact H].
Qed.

Lemma deliver_producer_sends (sdk : Sdk) :
  forall evs p w,
    exists k, k <= up_notices evs
              /\ sent (effects (deliver (QueueProducer.dispatch sdk) evs p w).1.1)
                 = replicate k (sample_message (QueueProducer.queueName p)).
Proof.
  induction evs as [| e evs IH]; intros p w; cbn [deliver].
  - exists 0. split; [cbn; lia | reflexivity].
  - destruct (exited w); [exists 0; split; [lia | reflexivity] |].
    destruct (producer_dispatch_sends sdk e p w) as [Hq Hsent].
    destruct (IH (st (QueueProducer.dispatch sdk e p w))
                 (world (QueueProducer.dispatch sdk e p w))) as (k & Hk & Hrest).
    destruct (deliver _ evs _ _) as [[steps p'] w'].
    cbn [fst] in *. unfold effects in *. cbn [map concat step_effects].
    rewrite sent_app, Hrest, Hq.
    destruct Hsent as [-> | [[s ->] ->]].
    + exists k. split; [destruct e as [? []| | |]; cbn; lia | reflexivity].
    + exists (S k). split; [cbn; lia | reflexivity].
Qed.

(** X11: in every execution of the producer, the messages handed to
    [session.send] are copies of one message, the persistent
    ['Sample Message'] for the queue ['tutorial/queue'], and there are at
    most as many as UP_NOTICE events among those delivered; without an
    UP_NOTICE nothing is sent. *)
Theorem producer_sends_on_up_notice (sdk : Sdk) (argv : list string) (evs : list Event) :
  exists k, k <= up_notices evs
            /\ sent (effects (QueueProducer.execution sdk argv evs).1.1)
               = replicate k (sample_message "tutorial/queue").
Proof.
  rewrite producer_execution_sent.
  destruct (deliver_producer_sends sdk evs (st (QueueProducer.main sdk argv))
              (world (QueueProducer.main sdk argv))) as (k & Hk & Hsent).
  exists k. split; [exact Hk |]. rewrite Hsent. f_equal. f_equal.
  rewrite producer_main_spec. case_bool_decide; reflexivity.
Qed.

(** The bound is reached, and missed when the session is down again. *)
Example producer_sends_on_up_notice_run :
  sent (effects (QueueProducer.execution ok argv4
                   [SessionEvent 0 UP_NOTICE; SessionEvent 0 UP_NOTICE]).1.1)
  = replicate 2 (sample_message "tutorial/queue")
  /\ sent (effects (QueueProducer.execution ok argv4
                      [SessionEvent 0 UP_NOTICE; SessionEvent 0 DISCONNECTED;
                       SessionEvent 0 UP_NOTICE]).1.1)
     = replicate 1 (sample_message "tutorial/queue").
Proof. split; vm_compute; reflexivity. Qed.

(** ** Waiting *)

Lemma Idle_elapse (ms : nat) (w : World) : Idle w -> Idle (elapse ms w).1.
Proof.
  intros [Ht He]. unfold Idle, elapse. cbn. rewrite Ht, He. split; reflexivity.
Qed.

Lemma Idle_called_if s w : Idle w -> Idle (called_if s w).
Proof. destruct s; auto. Qed.

Lemma deliver_idle {St} (dispatch : Event -> St -> World -> Res St unit)
    (Q : Event -> Prop)
    (Hd : forall e s w, Q e -> Idle w -> Idle (world (dispatch e s w))) :
  forall evs s w, Forall Q evs -> Idle w -> Idle (deliver dispatch evs s w).2.
Proof.
  induction evs as [| e evs IH]; intros s w Hall Hw; cbn [deliver]; [exact Hw |].
  destruct (exited w); [exact Hw |].
  inversion Hall as [| ? ? He Hall']; subst.
  specialize (IH (st (dispatch e s w)) (world (dispatch e s w)) Hall' (Hd e s w He Hw)).
  destruct (deliver dispatch evs _ _) as [[steps s'] w']. exact IH.
Qed.

Lemma producer_dispatch_idle (sdk : Sdk) e p w :
  (forall s, e <> SessionEvent s UP_NOTICE) -> Idle w ->
  Idle (world (QueueProducer.dispatch sdk e p w)).
Proof.
  intros Hne Hw. destruct e as [s code | f | f m | ms]; unfold QueueProducer.dispatch.
  - case_bool_decide; [| exact Hw].
    destruct code; [destruct (Hne s eq_refl) | exact Hw |].
    rewrite producer_on_DISCONNECTED_spec. exact Hw.
  - exact Hw.
  - exact Hw.
  - pose proof (Idle_elapse ms w Hw) as H. destruct (elapse ms w). exact H.
Qed.

Lemma requestor_dispatch_idle (sdk : Sdk) e r w :
  (forall f m, e <> FlowMessage f m) -> Idle w ->
  Idle (world (GuaranteedRequestor.dispatch sdk e r w)).
Proof.
  intros Hne Hw. destruct e as [s code | f | f m | ms]; unfold GuaranteedRequestor.dispatch.
  - case_bool_decide; [| exact Hw].
    destruct code.
    + unfold GuaranteedRequestor.on_UP_NOTICE, bind, log, emit.
      destruct (GuaranteedRequestor.session r) as [h|] eqn:Hs.
      * rewrite (request_connected r w h Hs). exact Hw.
      * rewrite (request_no_session r w Hs). exact Hw.
    + exact Hw.
    + rewrite requestor_on_DISCONNECTED_spec. exact Hw.
  - destruct (GuaranteedRequestor.flows r !! f) as [q|]; [| exact Hw].
    destruct (GuaranteedRequestor.session r) as [h|] eqn:Hs.
    + rewrite (on_flow_UP_connected sdk q r w h Hs). exact Hw.
    + rewrite (on_flow_UP_no_session sdk q r w Hs). exact Hw.
  - destruct (Hne f m eq_refl).
  - pose proof (Idle_elapse ms w Hw) as H. destruct (elapse ms w). exact H.
Qed.

Lemma producer_main_idle (sdk : Sdk) argv : Idle (world (QueueProducer.main sdk argv)).
Proof. rewrite producer_main_spec. case_bool_decide; split; reflexivity. Qed.

Lemma requestor_main_idle (sdk : Sdk) argv : Idle (world (GuaranteedRequestor.main sdk argv)).
Proof. rewrite requestor_main_spec. case_bool_decide; split; reflexivity. Qed.

Lemma elapse_idle_effects (ms : nat) (w : World) : Idle w -> (elapse ms w).2 = [].
Proof. intros [Ht _]. unfold elapse. cbn. rewrite Ht. reflexivity. Qed.

(** Along a delivery that starts with nothing pending, of events after
    which nothing is pending, a property of the calls made on such events
    holds of all the calls. *)
Lemma deliver_idle_Forall {St} (dispatch : Event -> St -> World -> Res St unit)
    (Q : Event -> Prop) (P : Effect -> Prop)
    (Hd : forall e s w, Q e -> Idle w -> Idle (world (dispatch e s w)))
    (Hp : forall e s w, Q e -> Idle w -> Forall P (emitted (dispatch e s w))) :
  forall evs s w, Forall Q evs -> Idle w ->
    Forall P (effects (deliver dispatch evs s w).1.1).
Proof.
  induction evs as [| e evs IH]; intros s w Hall Hw; cbn [deliver]; [constructor |].
  destruct (exited w); [constructor |].
  apply Forall_cons in Hall as [He Hall].
  specialize (IH (st (dispatch e s w)) (world (dispatch e s w)) Hall (Hd e s w He Hw)).
  destruct (deliver dispatch evs _ _) as [[steps s'] w'].
  cbn [fst] in *. unfold effects in *. cbn [map concat step_effects].
  apply Forall_app. split; [apply Hp; assumption | exact IH].
Qed.

Lemma producer_dispatch_no_exit_call (sdk : Sdk) e p w :
  (forall s, e <> SessionEvent s UP_NOTICE) -> Idle w ->
  Forall (fun x => exit_call x = false) (emitted (QueueProducer.dispatch sdk e p w)).
Proof.
  intros Hne Hw. destruct e as [s code | f | f m | ms]; unfold QueueProducer.dispatch.
  - case_bool_decide; [| constructor].
    destruct code; [destruct (Hne s eq_refl) | constructor |].
    rewrite producer_on_DISCONNECTED_spec. cbn [emitted]. unfold dispose_effects.
    destruct (QueueProducer.session p); repeat constructor.
  - constructor.
  - constructor.
  - pose proof (elapse_idle_effects ms w Hw) as H. destruct (elapse ms w).
    cbn in H. cbn [emitted]. rewrite H. constructor.
Qed.

Lemma requestor_dispatch_no_exit_call (sdk : Sdk) e r w :
  (forall f m, e <> FlowMessage f m) -> Idle w ->
  Forall (fun x => exit_call x = false) (emitted (GuaranteedRequestor.dispatch sdk e r w)).
Proof.
  intros Hne Hw. destruct e as [s code | f | f m | ms]; unfold GuaranteedRequestor.dispatch.
  - case_bool_decide; [| constructor].
    destruct code.
    + unfold GuaranteedRequestor.on_UP_NOTICE, bind, log, emit.
      destruct (GuaranteedRequestor.session r) as [h|] eqn:Hs.
      * rewrite (request_connected r w h Hs). repeat constructor.
      * rewrite (request_no_session r w Hs). repeat constructor.
    + repeat constructor.
    + rewrite requestor_on_DISCONNECTED_spec. cbn [emitted]. unfold dispose_effects.
      destruct (GuaranteedRequestor.session r); repeat constructor.
  - destruct (GuaranteedRequestor.flows r !! f) as [q|]; [| constructor].
    destruct (GuaranteedRequestor.session r) as [h|] eqn:Hs.
    + rewrite (on_flow_UP_connected sdk q r w h Hs). repeat constructor.
    + rewrite (on_flow_UP_no_session sdk q r w Hs). repeat constructor.
  - destruct (Hne f m eq_refl).
  - pose proof (elapse_idle_effects ms w Hw) as H. destruct (elapse ms w).
    cbn in H. cbn [emitted]. rewrite H. constructor.
Qed.

Lemma producer_main_no_exit_call (sdk : Sdk) argv :
  Forall (fun x => exit_call x = false) (emitted (QueueProducer.main sdk argv)).
Proof.
  rewrite producer_main_spec. unfold connect_lines, connect_failure.
  case_bool_decide; cbn [emitted]; [destruct (sdk (sdk_calls boot)) |];
    repeat constructor.
Qed.

Lemma requestor_main_no_exit_call (sdk : Sdk) argv :
  Forall (fun x => exit_call x = false) (emitted (GuaranteedRequestor.main sdk argv)).
Proof.
  rewrite requestor_main_spec. unfold connect_lines, connect_failure.
  case_bool_decide; cbn [emitted]; [destruct (sdk (sdk_calls boot)) |];
    repeat constructor.
Qed.

Lemma no_up_notice (evs : list Event) :
  up_notices evs = 0 -> Forall (fun e => forall s, e <> SessionEvent s UP_NOTICE) evs.
Proof.
  induction evs as [| e evs IH]; intros Hno; [constructor |].
  destruct e as [s [] | | |]; cbn in Hno; try discriminate;
    (constructor; [intros ?; discriminate | apply IH, Hno]).
Qed.

(** X13: the samples set no timeout of their own.  In an execution of the
    requestor in which no message is delivered on a flow, however much time
    passes and whatever else happens (the session going down, the send
    throwing), the requestor never calls [setTimeout] and never calls
    [process.exit()], and no timer is pending at the end.  Likewise the
    producer, when no UP_NOTICE is delivered.  This is about the calls of
    the sample: whether the process ends for another reason is not said. *)
Theorem no_exit_without_reply (sdk : Sdk) (argv : list string) (evs : list Event) :
  (No_reply evs ->
   Forall (fun x => exit_call x = false)
     (effects (GuaranteedRequestor.execution sdk argv evs).1.1)
   /\ timers (GuaranteedRequestor.execution sdk argv evs).2 = [])
  /\ (up_notices evs = 0 ->
      Forall (fun x => exit_call x = false)
        (effects (QueueProducer.execution sdk argv evs).1.1)
      /\ timers (QueueProducer.execution sdk argv evs).2 = []).
Proof.
  split.
  - intros Hno. split.
    + rewrite requestor_execution_effects. apply Forall_app.
      split; [apply requestor_main_no_exit_call |].
      apply (deliver_idle_Forall (GuaranteedRequestor.dispatch sdk) _ _
               (requestor_dispatch_idle sdk) (requestor_dispatch_no_exit_call sdk)
               evs _ _ Hno (requestor_main_idle sdk argv)).
    + unfold GuaranteedRequestor.execution. cbv zeta.
      pose proof (deliver_idle (GuaranteedRequestor.dispatch sdk) _
                    (requestor_dispatch_idle sdk) evs
                    (st (GuaranteedRequestor.main sdk argv))
                    (world (GuaranteedRequestor.main sdk argv)) Hno
                    (requestor_main_idle sdk argv)) as H.
      destruct (deliver _ evs _ _) as [[steps r'] w']. exact (proj1 H).
  - intros Hno. apply no_up_notice in Hno. split.
    + rewrite producer_execution_effects. apply Forall_app.
      split; [apply producer_main_no_exit_call |].
      apply (deliver_idle_Forall (QueueProducer.dispatch sdk) _ _
               (producer_dispatch_idle sdk) (producer_dispatch_no_exit_call sdk)
               evs _ _ Hno (producer_main_idle sdk argv)).
    + unfold QueueProducer.execution. cbv zeta.
      pose proof (deliver_idle (QueueProducer.dispatch sdk) _
                    (producer_dispatch_idle sdk) evs
                    (st (QueueProducer.main sdk argv))
                    (world (QueueProducer.main sdk argv)) Hno
                    (producer_main_idle sdk argv)) as H.
      destruct (deliver _ evs _ _) as [[steps r'] w']. exact (proj1 H).
Qed.

Lemma no_exit_without_reply_witness :
  No_reply [SessionEvent 0 UP_NOTICE; FlowUp 2; Elapse 4000]
  /\ Forall (fun x => exit_call x = false)
       (effects (GuaranteedRequestor.execution ok argv4
                   [SessionEvent 0 UP_NOTICE; FlowUp 2; Elapse 4000]).1.1)
  /\ sent (effects (GuaranteedRequestor.execution ok argv4
                      [SessionEvent 0 UP_NOTICE; FlowUp 2; Elapse 4000]).1.1)
     = [sample_request "tutorial/requestqueue" 1].
Proof.
  assert (Hno : No_reply [SessionEvent 0 UP_NOTICE; FlowUp 2; Elapse 4000])
    by (repeat constructor; discriminate).
  split; [exact Hno |].
  destruct (no_exit_without_reply ok argv4
              [SessionEvent 0 UP_NOTICE; FlowUp 2; Elapse 4000]) as [H _].
  destruct (H Hno) as [Hcalls _].
  split; [exact Hcalls | vm_compute; reflexivity].
Defined.
